(** * Ucore SDK: a shallow embedding of the call-marshalling layer

    The development follows the TypeScript sources of the SDK:
    - [helpers.ts]    ([netId], the network readiness gate);
    - [controller.ts] ([enterMarkets], [exitMarket]);
    - [ucore.ts]      (the UCORE token and UAI functions, [toChecksumAddress]);
    - [index.ts]      (the [Ucore] constructor).

    JavaScript values are modelled by the inductive type [value], an
    [async] function by a state-and-error monad over the instance the
    function is called on ([this]), the module-level [decimals] object and
    the log of the requests handed to [eth.read], [eth.trx] and [sign].
    The modules [eth.ts], [constants.ts] and [EIP712.ts] are not part of
    the development: what the SDK functions use of them is taken as a
    parameter of the sections below. *)

From Stdlib Require Import ZArith String Ascii List Bool Lia DecimalString.
From stdpp Require Import base option list strings gmap.

Local Open Scope string_scope.
Local Open Scope Z_scope.

(** ** Strings

    A JavaScript string is modelled by [string], a sequence of
    one-byte characters: the strings the SDK inspects (market symbols,
    hexadecimal addresses, digests) are ASCII. The model is the source on
    ASCII strings ([isAscii]) only: there a character is one UTF-16 unit
    and the case mappings touch the 26 letters and keep the length. What
    is proved of [toLowerCase] and [toUpperCase] is stated for such
    strings. *)

Module Js.

Definition code (c : ascii) : Z := Z.of_nat (nat_of_ascii c).
Definition char (z : Z) : ascii := ascii_of_nat (Z.to_nat z).

(** [String.prototype.toLowerCase] / [toUpperCase], one character, as
    they act on an ASCII character. *)
Definition lowerChar (c : ascii) : ascii :=
  if (65 <=? code c) && (code c <=? 90) then char (code c + 32) else c.

Definition upperChar (c : ascii) : ascii :=
  if (97 <=? code c) && (code c <=? 122) then char (code c - 32) else c.

Fixpoint mapChars (f : ascii -> ascii) (s : string) : string :=
  match s with
  | EmptyString => EmptyString
  | String c r => String (f c) (mapChars f r)
  end.

Definition toLowerCase : string -> string := mapChars lowerChar.
Definition toUpperCase : string -> string := mapChars upperChar.

(** The strings on which the model of the case mappings is the source. *)
Fixpoint isAscii (s : string) : bool :=
  match s with
  | EmptyString => true
  | String c r => (code c <? 128) && isAscii r
  end.

(** [s.substring(n)]. *)
Fixpoint substringFrom (n : nat) (s : string) : string :=
  match n, s with
  | O, _ => s
  | S n', String _ r => substringFrom n' r
  | S _, EmptyString => EmptyString
  end.

(** [s.split('')] then [charCodeAt(0)] of each character. *)
Fixpoint charCodes (s : string) : list Z :=
  match s with
  | EmptyString => nil
  | String c r => code c :: charCodes r
  end.

(** [s[0]], [undefined] ([None]) on the empty string. *)
Definition first (s : string) : option ascii :=
  match s with
  | EmptyString => None
  | String c _ => Some c
  end.

Definition rest (s : string) : string :=
  match s with
  | EmptyString => EmptyString
  | String _ r => r
  end.

(** [parseInt(c, 16)] of a one-character string; [None] is [NaN], which
    is also the result for [undefined] (no character). *)
Definition parseInt16 (c : option ascii) : option Z :=
  match c with
  | None => None
  | Some c =>
      let n := code c in
      if (48 <=? n) && (n <=? 57) then Some (n - 48)
      else if (97 <=? n) && (n <=? 102) then Some (n - 87)
      else if (65 <=? n) && (n <=? 70) then Some (n - 55)
      else None
  end.

(** [x >= 8] for a number or [NaN]. *)
Definition ge8 (x : option Z) : bool :=
  match x with
  | Some n => 8 <=? n
  | None => false
  end.

(** [s.startsWith(p)], used to state how messages are tagged. *)
Fixpoint startsWith (p s : string) : bool :=
  match p, s with
  | EmptyString, _ => true
  | String a p', String b s' => if Ascii.eqb a b then startsWith p' s' else false
  | String _ _, EmptyString => false
  end.

End Js.

(** ** Keccak-256

    [ethers.utils.keccak256], applied by the SDK to a [Uint8Array]; the
    result is the string ['0x'] followed by 64 lower-case hexadecimal
    digits. The permutation is Keccak-f[1600] on 25 lanes of 64 bits,
    rate 136 bytes, padding [0x01 .. 0x80]. *)

Module Keccak.

Definition mask64 : Z := 2 ^ 64 - 1.

Definition rotl (x : Z) (n : Z) : Z :=
  Z.land (Z.lor (Z.shiftl x n) (Z.shiftr x (64 - n))) mask64.

Definition lane (st : list Z) (x y : nat) : Z :=
  nth (x mod 5 + 5 * (y mod 5)) st 0.

Definition build (f : nat -> nat -> Z) : list Z :=
  flat_map (fun y => map (fun x => f x y) (seq 0 5)) (seq 0 5).

Definition rotation : list Z :=
  [  0;  1; 62; 28; 27;
    36; 44;  6; 55; 20;
     3; 10; 43; 25; 39;
    41; 45; 15; 21;  8;
    18;  2; 61; 56; 14 ].

Definition roundConstants : list Z :=
  [ 0x0000000000000001; 0x0000000000008082; 0x800000000000808A;
    0x8000000080008000; 0x000000000000808B; 0x0000000080000001;
    0x8000000080008081; 0x8000000000008009; 0x000000000000008A;
    0x0000000000000088; 0x0000000080008009; 0x000000008000000A;
    0x000000008000808B; 0x800000000000008B; 0x8000000000008089;
    0x8000000000008003; 0x8000000000008002; 0x8000000000000080;
    0x000000000000800A; 0x800000008000000A; 0x8000000080008081;
    0x8000000000008080; 0x0000000080000001; 0x8000000080008008 ].

Definition theta (st : list Z) : list Z :=
  let c x := fold_left Z.lxor (map (fun y => lane st x y) (seq 0 5)) 0 in
  let d x := Z.lxor (c (x + 4)%nat) (rotl (c (x + 1)%nat) 1) in
  build (fun x y => Z.lxor (lane st x y) (d x)).

(** [B[y][2x+3y] = rot(A[x][y], r[x][y])], read at the target: the
    source of [B[x'][y']] is [x = x' + 3y'], [y = x']. *)
Definition rhoPi (st : list Z) : list Z :=
  build (fun x' y' =>
           let x := ((x' + 3 * y') mod 5)%nat in
           let y := x' in
           rotl (lane st x y) (nth (x + 5 * y) rotation 0)).

Definition chi (st : list Z) : list Z :=
  build (fun x y =>
           Z.lxor (lane st x y)
                  (Z.land (Z.lxor (lane st (x + 1) y) mask64)
                          (lane st (x + 2) y))).

Definition iota (rc : Z) (st : list Z) : list Z :=
  match st with
  | a :: r => Z.lxor a rc :: r
  | nil => nil
  end.

Definition round (st : list Z) (rc : Z) : list Z :=
  iota rc (chi (rhoPi (theta st))).

Definition permute (st : list Z) : list Z :=
  fold_left round roundConstants st.

(** Little-endian lane of eight bytes. *)
Fixpoint laneOfBytes (bs : list Z) : Z :=
  match bs with
  | nil => 0
  | b :: r => Z.lor b (Z.shiftl (laneOfBytes r) 8)
  end.

Fixpoint bytesOfLane (n : nat) (l : Z) : list Z :=
  match n with
  | O => nil
  | S n' => Z.land l 255 :: bytesOfLane n' (Z.shiftr l 8)
  end.

Definition rate : nat := 136.

(** The 17 lanes of one 136-byte block. *)
Definition blockLanes (block : list Z) : list Z :=
  map (fun i => laneOfBytes (firstn 8 (skipn (8 * i) block))) (seq 0 17).

Definition absorbBlock (st block : list Z) : list Z :=
  let ls := blockLanes block in
  permute (map (fun i => Z.lxor (nth i st 0) (nth i ls 0)) (seq 0 25)).

(** Multi-rate padding: [0x01], zeros, and [0x80] on the last byte of the
    block (the two coincide as [0x81] when one byte is missing). *)
Definition pad (msg : list Z) : list Z :=
  let k := (rate - 1 - (List.length msg mod rate))%nat in
  match k with
  | O => msg ++ [0x81]
  | S k' => msg ++ [0x01] ++ repeat 0 k' ++ [0x80]
  end.

Fixpoint absorb (blocks : nat) (st msg : list Z) : list Z :=
  match blocks with
  | O => st
  | S b => absorb b (absorbBlock st (firstn rate msg)) (skipn rate msg)
  end.

Definition digest (msg : list Z) : list Z :=
  let p := pad msg in
  let st := absorb (List.length p / rate) (repeat 0 25%nat) p in
  firstn 32 (flat_map (bytesOfLane 8) st).

Definition hexDigit (n : Z) : ascii :=
  Js.char (if n <? 10 then 48 + n else 87 + n).

Fixpoint hexOfBytes (bs : list Z) : string :=
  match bs with
  | nil => EmptyString
  | b :: r => String (hexDigit (Z.shiftr b 4))
                     (String (hexDigit (Z.land b 15)) (hexOfBytes r))
  end.

Definition keccak256 (bytes : list Z) : string :=
  "0x" +:+ hexOfBytes (digest bytes).

End Keccak.

(** ** [toChecksumAddress] (ucore.ts)

    The function throws (a [TypeError], at [chars[i].charCodeAt]) when
    fewer than 40 characters follow the first two; the callers catch
    whatever it throws, so [None] stands for the throw. *)

Module Checksum.

(** The second loop: [hash[i]] and [_address[i]] advance together, and a
    character of the argument itself is upper-cased or kept. *)
Fixpoint applyHash (hash _address : string) : string :=
  match _address with
  | EmptyString => EmptyString
  | String c r =>
      String (if Js.ge8 (Js.parseInt16 (Js.first hash)) then Js.upperChar c else c)
             (applyHash (Js.rest hash) r)
  end.

(** [expanded]: the codes of the first 40 characters of [chars]. *)
Definition expand (_address : string) : list Z :=
  firstn 40 (Js.charCodes (Js.substringFrom 2 (Js.toLowerCase _address))).

Definition toChecksumAddress (_address : string) : option string :=
  let chars := Js.substringFrom 2 (Js.toLowerCase _address) in
  if (String.length chars <? 40)%nat then None
  else Some (applyHash (Keccak.keccak256 (expand _address)) _address).

End Checksum.

(** ** Values, errors and promises *)

Set Warnings "-register-all".

(** An [Error] object: its [name] and its [message]. *)
Record error : Type := Err { err_name : string; err_message : string }.

(** [Error(msg)] and the engine's [TypeError] on a property read of
    [undefined]. *)
Definition Error (msg : string) : error := Err "Error" msg.

Definition TypeError (prop : string) : error :=
  Err "TypeError" ("Cannot read properties of undefined (reading '" +:+ prop +:+ "')").

Inductive value : Type :=
  | VUndefined
  | VNull
  | VBool (b : bool)
  | VNum (n : Z)                      (* a number with an integer value *)
  | VNaN
  | VStr (s : string)
  | VBig (n : Z)                      (* an ethers [BigNumber] *)
  | VArr (items : list value)
  | VObj (extensible : bool) (fields : list (string * value))
  | VErr (e : error)                  (* an [Error] object used as a value *)
  | VFun (modl fname : string)        (* the function [fname] of a module *)
  | VHost (id : string).              (* a provider, signer or ABI object *)

(** An object literal's fields, in insertion order. *)
Abbreviation fields := (list (string * value)).

Fixpoint getField (k : string) (fs : fields) : value :=
  match fs with
  | nil => VUndefined
  | (k', v) :: r => if String.eqb k k' then v else getField k r
  end.

(** Writing a property: replace it where it is, or add it at the end. *)
Fixpoint setField (k : string) (v : value) (fs : fields) : fields :=
  match fs with
  | nil => [(k, v)]
  | (k', v') :: r =>
      if String.eqb k k' then (k, v) :: r else (k', v') :: setField k v r
  end.

(** [{ ...a, ...b }]: the fields of [b] written over those of [a]. *)
Definition spread (a b : fields) : fields :=
  fold_left (fun acc kv => setField (fst kv) (snd kv) acc) b a.

Definition typeof (v : value) : string :=
  match v with
  | VUndefined => "undefined"
  | VBool _ => "boolean"
  | VNum _ | VNaN => "number"
  | VStr _ => "string"
  | VFun _ _ => "function"
  | VNull | VBig _ | VArr _ | VObj _ _ | VErr _ | VHost _ => "object"
  end.

(** [!v] is [negb (truthy v)]. *)
Definition truthy (v : value) : bool :=
  match v with
  | VUndefined | VNull | VNaN => false
  | VBool b => b
  | VNum n => negb (n =? 0)
  | VStr s => negb (String.eqb s "")
  | _ => true
  end.

(** [Object.isExtensible]: [false] on a primitive, the object's own flag
    on a plain object ([false] once frozen, sealed or made
    non-extensible); a [BigNumber] is frozen by its constructor. *)
Definition isExtensible (v : value) : bool :=
  match v with
  | VObj ext _ => ext
  | VArr _ | VErr _ | VFun _ _ | VHost _ => true
  | _ => false
  end.

(** [v.k] for a value that is not [undefined] or [null]. *)
Definition getProp (k : string) (v : value) : value :=
  match v with
  | VObj _ fs => getField k fs
  | _ => VUndefined
  end.

Definition isArray (v : value) : bool :=
  match v with VArr _ => true | _ => false end.

Definition isBigNumber (v : value) : bool :=
  match v with VBig _ => true | _ => false end.

(** A settled promise. *)
Inductive settled : Type :=
  | Fulfilled (v : value)
  | Rejected (e : error).

(** What calling a library function yields: it throws, or it returns a
    promise. *)
Inductive response : Type :=
  | Throws (e : error)
  | Promise (p : settled).

(** The requests the SDK hands to [eth.read], [eth.trx] and to [sign] of
    EIP712.ts, with their arguments in order. *)
Inductive request : Type :=
  | Read (address : value) (method : string) (parameters : list value) (options : fields)
  | Trx (address : value) (method : string) (parameters : list value) (options : fields)
  | Sign (domain : value) (primaryType : string) (message : value) (types : value)
         (signer : value).

Record Network : Type := { net_id : Z; net_name : string }.

(** A provider as the SDK uses it: the object itself, its [address]
    property, and what its [getAddress] and [getSigner] methods return
    when it has them. *)
Record Provider : Type := {
  prov_self : value;
  prov_address : value;
  prov_getAddress : option settled;
  prov_getSigner : option value
}.

(** The one object an instance's [decimals] property can refer to: the
    [decimals] table exported by constants.ts. *)
Inductive ref : Type := ConstantsDecimals.

(** An instance built by the constructor. [_networkPromise] is present
    while the network is being identified and records what the promise
    settles to; [bindings] are the function-valued properties. *)
Record UcoreInstance : Type := {
  _originalProvider : value;
  _provider : Provider;
  _networkPromise : option (Network + error);
  _network : option Network;
  decimals : option ref;
  bindings : gmap string value
}.

(** ** The environment: constants.ts, eth.ts, EIP712.ts and the engine *)

Record Env : Type := {
  (** constants.ts: [address[network][name]], the [vTokens] list,
      [abi[name]]. *)
  address : gmap string (gmap string string);
  vTokens : list string;
  abi : string -> value;
  (** eth.ts and EIP712.ts: the response to a request. *)
  respond : request -> response;
  (** eth.ts: [_createProvider(options)] and [getProviderNetwork]. *)
  _createProvider : fields -> error + Provider;
  getProviderNetwork : Provider -> Network + error;
  (** The engine: [x.toString()] / string concatenation of a value that
      is not a string, and the unary [+] on a string. *)
  toString : value -> string;
  toNumber : string -> value;
  (** [ethers.BigNumber.from(amount.toString())], after the scaling by
      [Math.pow(10, 18)] when [mantissa] is falsy: floating point, kept
      abstract. *)
  amountToBigNumber : bool -> value -> error + value;
  (** The modules spread into an instance besides controller.ts: the
      names they export. *)
  vToken_exports : list string;
  priceFeed_exports : list string;
  gov_exports : list string
}.

(** ** Asynchronous functions

    The state an [async] function of the SDK runs in: the instance it is
    called on, the module-level [decimals] object, and the requests
    issued so far (oldest first). Its promise is fulfilled ([Return]) or
    rejected ([Throw]). *)

Record world : Type := {
  this : UcoreInstance;
  constants_decimals : gmap string Z;
  log : list request
}.

Inductive outcome (A : Type) : Type :=
  | Return (a : A)
  | Throw (e : error).
Arguments Return {A} a.
Arguments Throw {A} e.

Definition async (A : Type) : Type := world -> outcome A * world.

#[global] Instance async_ret : MRet async := fun A a w => (Return a, w).

#[global] Instance async_bind : MBind async := fun A B f m w =>
  match m w with
  | (Return a, w') => f a w'
  | (Throw e, w') => (Throw e, w')
  end.

Definition throw {A : Type} (e : error) : async A := fun w => (Throw e, w).

Definition getThis : async UcoreInstance := fun w => (Return (this w), w).

(** [try { body } catch (e) { handler e }]. *)
Definition tryCatch {A : Type} (body : async A) (handler : error -> async A) : async A :=
  fun w =>
    match body w with
    | (Return a, w') => (Return a, w')
    | (Throw e, w') => handler e w'
    end.

(** [await p], and what [return p] does to the promise of an [async]
    function once control has left its body. *)
Definition await (p : settled) : async value :=
  match p with
  | Fulfilled v => mret v
  | Rejected e => throw e
  end.

Definition setThis (i : UcoreInstance) : async unit := fun w =>
  (Return tt, {| this := i; constants_decimals := constants_decimals w; log := log w |}).

(** ** The network promise (index.ts, helpers.ts) *)

(** The callback the constructor chains on [eth.getProviderNetwork]:
    [instance.decimals = decimals] stores a reference to the module-level
    object, and the two assignments that follow write through it. *)
Definition networkResolved (network : Network) (instance : UcoreInstance)
    (d : gmap string Z) : UcoreInstance * gmap string Z :=
  let d' :=
    if (net_id network =? 56) || String.eqb (net_name network) "mainnet"
    then <["USDT" := 18]> (<["USDC" := 18]> d)
    else d in
  ({| _originalProvider := _originalProvider instance;
      _provider := _provider instance;
      _networkPromise := None;
      _network := Some network;
      decimals := Some ConstantsDecimals;
      bindings := bindings instance |}, d').

(** [instance.decimals.k], read through the reference. *)
Definition instanceDecimals (instance : UcoreInstance) (d : gmap string Z)
    (k : string) : option Z :=
  match decimals instance with
  | Some ConstantsDecimals => d !! k
  | None => None
  end.

(** [netId]: when the instance still has its [_networkPromise], wait for
    it; it settles after the constructor's callback has run. *)
Definition netId : async unit := fun w =>
  match _networkPromise (this w) with
  | None => (Return tt, w)
  | Some (inl network) =>
      let '(i, d) := networkResolved network (this w) (constants_decimals w) in
      (Return tt, {| this := i; constants_decimals := d; log := log w |})
  | Some (inr e) => (Throw e, w)
  end.

(** The network an instance ends up with, when it does. *)
Definition resolvedNetwork (i : UcoreInstance) : option Network :=
  match _networkPromise i with
  | Some (inl network) => Some network
  | Some (inr _) => None
  | None => _network i
  end.

(** The world once request [r] has been issued. *)
Definition logged (r : request) (w : world) : world :=
  {| this := this w; constants_decimals := constants_decimals w;
     log := log w ++ [r] |}.

(** [table[key]] as a value. *)
Definition entry (table : gmap string string) (key : string) : value :=
  match table !! key with
  | Some a => VStr a
  | None => VUndefined
  end.

Section Sdk.

Variable env : Env.

(** [this._network.name] and [this._network.id]. *)
Definition networkName : async string :=
  i ← getThis;
  match _network i with
  | Some n => mret (net_name n)
  | None => throw (TypeError "name")
  end.

Definition networkId : async Z :=
  i ← getThis;
  match _network i with
  | Some n => mret (net_id n)
  | None => throw (TypeError "id")
  end.

(** [address[name][key]]: [undefined] for a key the network's table
    lacks, a [TypeError] when the network has no table. *)
Definition addressIn (name key : string) : async value :=
  match address env !! name with
  | Some table => mret (entry table key)
  | None => throw (TypeError key)
  end.

(** [address[this._network.name][key]]. *)
Definition addressOf (key : string) : async value :=
  name ← networkName;
  addressIn name key.

(** Calling [eth.read], [eth.trx] or [sign]: the request is logged and
    the library throws or returns a promise. *)
Definition invoke (r : request) : async settled := fun w =>
  match respond env r with
  | Throws e => (Throw e, logged r w)
  | Promise p => (Return p, logged r w)
  end.

(** String concatenation with a value, and [x.toString()]. *)
Definition str (v : value) : string :=
  match v with
  | VStr s => s
  | _ => toString env v
  end.

Definition callToString (v : value) : async string :=
  match v with
  | VUndefined | VNull => throw (TypeError "toString")
  | _ => mret (str v)
  end.

Definition includes (l : list string) (v : value) : bool :=
  match v with
  | VStr s => bool_decide (s ∈ l)
  | _ => false
  end.

(** [x[0]] for a value that is not [undefined] or [null]. *)
Definition index0 (v : value) : value :=
  match v with
  | VStr s =>
      match s with
      | EmptyString => VUndefined
      | String c _ => VStr (String c EmptyString)
      end
  | VArr l => hd VUndefined l
  | VObj _ fs => getField "0" fs
  | _ => VUndefined
  end.

Definition isV (v : value) : bool :=
  match v with
  | VStr s => String.eqb s "v"
  | _ => false
  end.

(** [if (m[0] !== 'v') m = 'v' + m], on one market. *)
Definition prependV (m : value) : async value :=
  match m with
  | VUndefined | VNull => throw (TypeError "0")
  | _ => if isV (index0 m) then mret m else mret (VStr ("v" +:+ str m))
  end.

Definition notRecognized (errorPrefix : string) (m : value) : error :=
  Error (errorPrefix +:+ "Provided market `" +:+ str m +:+ "` is not a recognized vToken.").

(** *** controller.ts *)

(** The body of the [for] loop of [enterMarkets], from index [i] on;
    [addresses] is the array pushed to so far. (The loop also writes the
    prefixed symbol back into the caller's array; nothing below reads
    that array again.) *)
Fixpoint enterMarkets_loop (errorPrefix : string) (markets : list value)
    (addresses : list value) : async (list value) :=
  match markets with
  | nil => mret addresses
  | m :: rest =>
      m' ← prependV m;
      if includes (vTokens env) m' then
        a ← addressOf (str m');
        enterMarkets_loop errorPrefix rest (addresses ++ [a])
      else throw (notRecognized errorPrefix m')
  end.

Definition enterMarkets (markets : value) (options : fields) : async value :=
  let markets := match markets with VUndefined => VArr [] | _ => markets end in
  _ ← netId;
  let errorPrefix := "Ucore [enterMarkets] | " in
  let markets := match markets with VStr _ => VArr [markets] | _ => markets end in
  match markets with
  | VArr ms =>
      addresses ← enterMarkets_loop errorPrefix ms [];
      controllerAddress ← addressOf "Controller";
      i ← getThis;
      let parameters := [VArr addresses] in
      let trxOptions :=
        spread [("_ucoreProvider", prov_self (_provider i));
                ("abi", abi env "Controller")] options in
      p ← invoke (Trx controllerAddress "enterMarkets" parameters trxOptions);
      await p
  | _ => throw (Error (errorPrefix +:+ "Argument `markets` must be an array or string."))
  end.

Definition exitMarket (market : value) (options : fields) : async value :=
  _ ← netId;
  let errorPrefix := "Ucore [exitMarkets] | " in
  match market with
  | VStr (String _ _ as s) =>
      let market := if isV (index0 (VStr s)) then s else "v" +:+ s in
      if includes (vTokens env) (VStr market) then
        vTokenAddress ← addressOf market;
        controllerAddress ← addressOf "Controller";
        i ← getThis;
        let parameters := [vTokenAddress] in
        let trxOptions :=
          spread [("_ucoreProvider", prov_self (_provider i));
                  ("abi", abi env "Controller")] options in
        p ← invoke (Trx controllerAddress "exitMarket" parameters trxOptions);
        await p
      else throw (notRecognized errorPrefix (VStr market))
  | _ => throw (Error (errorPrefix +:+
                       "Argument `market` must be a string of a vToken market name."))
  end.

(** *** ucore.ts *)

(** The two address checks every function taking [_address] makes, in
    the same words, with its own [errorPrefix]. *)
Definition checkAddress (errorPrefix : string) (_address : value) : async string :=
  match _address with
  | VStr s =>
      match Checksum.toChecksumAddress s with
      | Some a => mret a
      | None => throw (Error (errorPrefix +:+
                              "Argument `_address` must be a valid Ethereum address."))
      end
  | _ => throw (Error (errorPrefix +:+ "Argument `_address` must be a string."))
  end.

(** [{ ...options, _ucoreProvider: this._provider, abi: abi[name] }]. *)
Definition withProvider (options : fields) (provider : Provider) (name : string) : fields :=
  spread options [("_ucoreProvider", prov_self provider); ("abi", abi env name)].

Definition liftEither {A : Type} (r : error + A) : async A :=
  match r with
  | inl e => throw e
  | inr a => mret a
  end.

Definition liftNetwork (r : Network + error) : async Network :=
  match r with
  | inl n => mret n
  | inr e => throw e
  end.

Definition getUcoreBalance (_address : value) (_provider : value) : async value :=
  let _provider := match _provider with VUndefined => VStr "mainnet" | _ => _provider end in
  provider ← liftEither (_createProvider env [("provider", _provider)]);
  net ← liftNetwork (getProviderNetwork env provider);
  let errorPrefix := "Ucore [getUcoreBalance] | " in
  _address ← checkAddress errorPrefix _address;
  ucoreAddress ← addressIn (net_name net) "UCORE";
  let parameters := [VStr _address] in
  let trxOptions := [("_ucoreProvider", prov_self provider); ("abi", abi env "UCORE")] in
  p ← invoke (Read ucoreAddress "balanceOf" parameters trxOptions);
  result ← await p;
  s ← callToString result;
  mret (VStr s).

(** [result.allocated], a [TypeError] on [undefined] and [null]. *)
Definition allocatedOf (result : value) : async value :=
  match result with
  | VUndefined | VNull => throw (TypeError "allocated")
  | _ => mret (getProp "allocated" result)
  end.

Definition getUcoreAccrued (_address : value) (_provider : value) : async value :=
  let _provider := match _provider with VUndefined => VStr "mainnet" | _ => _provider end in
  provider ← liftEither (_createProvider env [("provider", _provider)]);
  net ← liftNetwork (getProviderNetwork env provider);
  let errorPrefix := "Ucore [getUcoreAccrued] | " in
  _address ← checkAddress errorPrefix _address;
  lensAddress ← addressIn (net_name net) "UcoreLens";
  ucoreAddress ← addressIn (net_name net) "UCORE";
  controllerAddress ← addressIn (net_name net) "Controller";
  let parameters := [ucoreAddress; controllerAddress; VStr _address] in
  let trxOptions := [("_ucoreProvider", prov_self provider); ("abi", abi env "UcoreLens")] in
  p ← invoke (Read lensAddress "getXVSBalanceMetadataExt" parameters trxOptions);
  result ← await p;
  allocated ← allocatedOf result;
  s ← callToString allocated;
  mret (VStr s).

(** [this._provider.address], or the awaited [getAddress()] when it is
    falsy and the provider has the method. *)
Definition userAddressOf (provider : Provider) : async value :=
  if truthy (prov_address provider) then mret (prov_address provider)
  else match prov_getAddress provider with
       | Some p => await p
       | None => mret (prov_address provider)
       end.

(** The [catch] blocks: [e.message = errorPrefix + e.message; return e]. *)
Definition prefixed (errorPrefix : string) (e : error) : error :=
  Err (err_name e) (errorPrefix +:+ err_message e).

Definition returnError (errorPrefix : string) (e : error) : async settled :=
  mret (Fulfilled (VErr (prefixed errorPrefix e))).

(** [return eth.trx(...)] inside the [try] hands the promise over
    without awaiting it: the [catch] sees what is thrown while the
    block runs, and the promise settles the function's own afterwards. *)
Definition claimUcore (options : fields) : async value :=
  _ ← netId;
  p ← tryCatch
        (i ← getThis;
         userAddress ← userAddressOf (_provider i);
         controllerAddress ← addressOf "Controller";
         let trxOptions := withProvider options (_provider i) "Controller" in
         let parameters := [userAddress] in
         let method := "claimUcore(address)" in
         invoke (Trx controllerAddress method parameters trxOptions))
        (returnError "Ucore [claimUcore] | ");
  await p.

Definition delegate (_address : value) (options : fields) : async value :=
  _ ← netId;
  let errorPrefix := "Ucore [delegate] | " in
  _address ← checkAddress errorPrefix _address;
  ucoreAddress ← addressOf "UCORE";
  i ← getThis;
  let trxOptions := withProvider options (_provider i) "UCORE" in
  let parameters := [VStr _address] in
  p ← invoke (Trx ucoreAddress "delegate" parameters trxOptions);
  await p.

Definition signatureError (errorPrefix : string) : error :=
  Error (errorPrefix +:+ "Argument `signature` must be an object that " +:+
         "contains the v, r, and s pieces of an EIP-712 signature.").

Definition delegateBySig (_address nonce expiry signature : value)
    (options : fields) : async value :=
  let signature :=
    match signature with
    | VUndefined => VObj true [("v", VStr ""); ("r", VStr ""); ("s", VStr "")]
    | _ => signature
    end in
  _ ← netId;
  let errorPrefix := "Ucore [delegateBySig] | " in
  _address ← checkAddress errorPrefix _address;
  if negb (String.eqb (typeof nonce) "number") then
    throw (Error (errorPrefix +:+ "Argument `nonce` must be an integer."))
  else if negb (String.eqb (typeof expiry) "number") then
    throw (Error (errorPrefix +:+ "Argument `expiry` must be an integer."))
  else if negb (isExtensible signature)
          || negb (truthy (getProp "v" signature))
          || negb (truthy (getProp "r" signature))
          || negb (truthy (getProp "s" signature)) then
    throw (signatureError errorPrefix)
  else
    ucoreAddress ← addressOf "UCORE";
    i ← getThis;
    let trxOptions := withProvider options (_provider i) "UCORE" in
    let v := getProp "v" signature in
    let r := getProp "r" signature in
    let s := getProp "s" signature in
    let parameters := [VStr _address; nonce; expiry; v; r; s] in
    p ← invoke (Trx ucoreAddress "delegateBySig" parameters trxOptions);
    await p.

Definition delegationTypes : value :=
  let entry n t := VObj true [("name", VStr n); ("type", VStr t)] in
  VObj true
    [("EIP712Domain",
      VArr [entry "name" "string"; entry "chainId" "uint256";
            entry "verifyingContract" "address"]);
     ("Delegation",
      VArr [entry "delegatee" "address"; entry "nonce" "uint256";
            entry "expiry" "uint256"])].

Definition noncesRead (ucoreAddress userAddress originalProvider : value) : request :=
  Read ucoreAddress "function nonces(address) returns (uint)" [userAddress]
       [("provider", originalProvider)].

Definition createDelegateSignature (delegatee expiry : value) : async value :=
  let expiry := match expiry with VUndefined => VNum 10000000000 | _ => expiry end in
  _ ← netId;
  i ← getThis;
  let provider := _provider i in
  ucoreAddress ← addressOf "UCORE";
  chainId ← networkId;
  userAddress ← userAddressOf provider;
  let originalProvider := _originalProvider i in
  p ← invoke (noncesRead ucoreAddress userAddress originalProvider);
  result ← await p;
  s ← callToString result;
  let nonce := toNumber env s in
  let domain := VObj true [("name", VStr "Ucore"); ("chainId", VNum chainId);
                           ("verifyingContract", ucoreAddress)] in
  let primaryType := "Delegation" in
  let message := VObj true [("delegatee", delegatee); ("nonce", nonce);
                            ("expiry", expiry)] in
  let types := delegationTypes in
  let signer := match prov_getSigner provider with
                | Some s => s
                | None => prov_self provider
                end in
  q ← invoke (Sign domain primaryType message types signer);
  signature ← await q;
  mret signature.

(** [result.length] and [result[k]] for a value that is not [undefined]
    or [null]; [n > 1] for a length. *)
Definition lengthOf (v : value) : value :=
  match v with
  | VArr l => VNum (Z.of_nat (List.length l))
  | VStr s => VNum (Z.of_nat (String.length s))
  | VObj _ fs => getField "length" fs
  | _ => VUndefined
  end.

Definition indexAt (k : nat) (v : value) : value :=
  match v with
  | VArr l => nth k l VUndefined
  | VStr s =>
      match String.get k s with
      | Some c => VStr (String c EmptyString)
      | None => VUndefined
      end
  | VObj _ fs => getField (if Nat.eqb k 0 then "0" else "1") fs
  | _ => VUndefined
  end.

Definition greaterThanOne (v : value) : bool :=
  match v with
  | VNum n => 1 <? n
  | _ => false
  end.

Definition getMintableUAI (_address : value) (options : fields) : async value :=
  let errorPrefix := "Ucore [getMintableUAI] | " in
  _address ← checkAddress errorPrefix _address;
  controllerAddress ← addressOf "Controller";
  i ← getThis;
  let parameters := [VStr _address] in
  let trxOptions := withProvider options (_provider i) "Controller" in
  p ← invoke (Read controllerAddress "getMintableUAI" parameters trxOptions);
  result ← await p;
  let contractError := throw (Error (errorPrefix +:+ "Contract error occured")) in
  match result with
  | VUndefined | VNull => throw (TypeError "length")
  | _ =>
      if greaterThanOne (lengthOf result) then
        s0 ← callToString (indexAt 0 result);
        if String.eqb s0 "0" then
          s1 ← callToString (indexAt 1 result);
          mret (VStr s1)
        else contractError
      else contractError
  end.

(** The reads of the Controller that take no argument; [stringify] says
    whether the function returns [result.toString()] or [result]. *)
Definition controllerGetter (method : string) (stringify : bool)
    (options : fields) : async value :=
  controllerAddress ← addressOf "Controller";
  i ← getThis;
  let trxOptions := withProvider options (_provider i) "Controller" in
  p ← invoke (Read controllerAddress method [] trxOptions);
  result ← await p;
  if stringify then s ← callToString result; mret (VStr s)
  else mret result.

Definition getUAIMintRate := controllerGetter "getUAIMintRate" true.
Definition mintUAIGuardianPaused := controllerGetter "mintUAIGuardianPaused" false.
Definition repayUAIGuardianPaused := controllerGetter "repayUAIGuardianPaused" false.
Definition uaiController := controllerGetter "uaiController" false.
Definition uaiMintRate := controllerGetter "uaiMintRate" true.

(** [mintedUAIOf] and [mintedUAIs]: the same body, up to the name. *)
Definition mintedReader (method : string) (_address : value)
    (options : fields) : async value :=
  let errorPrefix := "Ucore [" +:+ method +:+ "] | " in
  _address ← checkAddress errorPrefix _address;
  controllerAddress ← addressOf "Controller";
  i ← getThis;
  let parameters := [VStr _address] in
  let trxOptions := withProvider options (_provider i) "Controller" in
  p ← invoke (Read controllerAddress method parameters trxOptions);
  result ← await p;
  s ← callToString result;
  mret (VStr s).

Definition mintedUAIOf := mintedReader "mintedUAIOf".
Definition mintedUAIs := mintedReader "mintedUAIs".

Definition isAmount (v : value) : bool :=
  String.eqb (typeof v) "number" || String.eqb (typeof v) "string" || isBigNumber v.

(** [mintUAI] and [repayUAI] differ in the method, in the prefix of the
    validation error ([checkPrefix]) and in the prefix of the [catch]
    block ([catchPrefix]). *)
Definition uaiTransaction (method checkPrefix catchPrefix : string)
    (amount : value) (options : fields) : async value :=
  _ ← netId;
  let errorPrefix := checkPrefix in
  if negb (isAmount amount) then
    throw (Error (errorPrefix +:+
                  "Argument `amount` must be a string, number, or BigNumber."))
  else
    amount ← liftEither
               (amountToBigNumber env (truthy (getField "mantissa" options)) amount);
    p ← tryCatch
          (controllerAddress ← addressOf "Controller";
           i ← getThis;
           let trxOptions := withProvider options (_provider i) "Controller" in
           let parameters := [amount] in
           invoke (Trx controllerAddress method parameters trxOptions))
          (returnError catchPrefix);
    await p.

Definition mintUAI := uaiTransaction "mintUAI" "Ucore [mintUAI] | " "Ucore [mintUAI] | ".
Definition repayUAI := uaiTransaction "repayUAI" "Ucore [mintUAI] | " "Ucore [repayUAI] | ".

(** *** index.ts *)

(** A module namespace object: each exported name bound to the function
    of that name defined in the module. *)
Definition exports (modl : string) (names : list string) : gmap string value :=
  list_to_map ((fun n => (n, VFun modl n)) <$> names).

(** [m.k]: [undefined] when the module has no such export. *)
Definition member (m : gmap string value) (k : string) : value :=
  default VUndefined (m !! k).

Definition controller : gmap string value :=
  exports "controller" ["enterMarkets"; "exitMarket"].

(** [import * as comp from './ucore']. *)
Definition comp : gmap string value :=
  exports "ucore"
    ["getUcoreBalance"; "getUcoreAccrued"; "claimUcore"; "delegate";
     "delegateBySig"; "createDelegateSignature"; "getMintableUAI";
     "getUAIMintRate"; "mintUAIGuardianPaused"; "repayUAIGuardianPaused";
     "mintedUAIOf"; "mintedUAIs"; "uaiController"; "uaiMintRate";
     "mintUAI"; "repayUAI"].

Definition vToken : gmap string value := exports "vToken" (vToken_exports env).
Definition priceFeed : gmap string value := exports "priceFeed" (priceFeed_exports env).
Definition gov : gmap string value := exports "gov" (gov_exports env).

(** [key: comp.key] in the object literal. *)
Definition bindComp (key : string) (o : gmap string value) : gmap string value :=
  <[key := member comp key]> o.

(** The function-valued part of the object literal: the four spreads (a
    later one wins over an earlier one), then the fourteen named
    properties in order. *)
Definition instanceBindings : gmap string value :=
  fold_left (fun o key => bindComp key o)
    ["claimUcore"; "delegate"; "delegateBySig"; "createDelegateSignature";
     "getMintableVAI"; "getVAIMintRate"; "mintVAIGuardianPaused";
     "repayVAIGuardianPaused"; "mintedVAIOf"; "mintedVAIs"; "vaiController";
     "vaiMintRate"; "mintVAI"; "repayVAI"]
    (gov ∪ (priceFeed ∪ (vToken ∪ controller))).

(** The constructor. It throws when [eth._createProvider] does. *)
Definition Ucore (provider : value) (options : fields) : error + UcoreInstance :=
  let provider := match provider with VUndefined => VStr "mainnet" | _ => provider end in
  let originalProvider := provider in
  let options :=
    setField "provider"
      (if truthy provider then provider else getField "provider" options) options in
  match _createProvider env options with
  | inl e => inl e
  | inr provider =>
      inr {| _originalProvider := originalProvider;
             _provider := provider;
             _networkPromise := Some (getProviderNetwork env provider);
             _network := None;
             decimals := None;
             bindings := instanceBindings |}
  end.

(** *** Several instances over the one [decimals] object

    The module state: the [decimals] object of constants.ts, which is
    also [Ucore.decimals], and the instances built so far. A step
    builds an instance or settles the network promise of one. *)
Record runtime : Type := {
  Ucore_decimals : gmap string Z;
  instances : list UcoreInstance
}.

Inductive step : Type :=
  | Construct (provider : value) (options : fields)
  | Settle (k : nat).

Definition runStep (r : runtime) (s : step) : runtime :=
  match s with
  | Construct provider options =>
      match Ucore provider options with
      | inr i => {| Ucore_decimals := Ucore_decimals r;
                    instances := instances r ++ [i] |}
      | inl _ => r
      end
  | Settle k =>
      match instances r !! k with
      | Some i =>
          match _networkPromise i with
          | Some (inl network) =>
              let '(i', d) := networkResolved network i (Ucore_decimals r) in
              {| Ucore_decimals := d; instances := <[k := i']> (instances r) |}
          | _ => r
          end
      | None => r
      end
  end.

Definition run (r : runtime) (steps : list step) : runtime :=
  fold_left runStep steps r.

(** [instances[k].decimals[key]]. *)
Definition decimalsSeenBy (r : runtime) (k : nat) (key : string) : option Z :=
  i ← instances r !! k;
  instanceDecimals i (Ucore_decimals r) key.

End Sdk.

(** ** A concrete deployment

    Two networks with their address tables, three recognized markets and
    a wallet provider, to run the functions on. The responses of the
    library are a parameter. *)

Module Demo.

Definition mainnet : Network := {| net_id := 56; net_name := "mainnet" |}.
Definition testnet : Network := {| net_id := 97; net_name := "testnet" |}.

Definition controllerAddress : string := "0x1111111111111111111111111111111111111111".
Definition ucoreAddress : string := "0x2222222222222222222222222222222222222222".
Definition vSXP : string := "0x3333333333333333333333333333333333333333".
Definition vUSDC : string := "0x4444444444444444444444444444444444444444".

Definition table : gmap string string :=
  {[ "Controller" := controllerAddress; "UCORE" := ucoreAddress;
     "vSXP" := vSXP; "vUSDC" := vUSDC ]}.

Definition addresses : gmap string (gmap string string) :=
  {[ "mainnet" := table; "testnet" := table ]}.

Definition markets : list string := ["vSXP"; "vUSDC"; "vBNB"].

Definition abis (name : string) : value := VHost ("abi." +:+ name).

Definition user : string := "0x5aAeb6053F3E94C9b9A09f33669435E7Ef1BeAed".

(** A wallet that knows its address, and a signer that has to be asked
    for it and answers [answer]. *)
Definition wallet : Provider :=
  {| prov_self := VHost "wallet"; prov_address := VStr user;
     prov_getAddress := None; prov_getSigner := None |}.

Definition signer (answer : settled) : Provider :=
  {| prov_self := VHost "signer"; prov_address := VUndefined;
     prov_getAddress := Some answer; prov_getSigner := None |}.

Definition testnetWallet : Provider :=
  {| prov_self := VHost "testnet-wallet"; prov_address := VStr user;
     prov_getAddress := None; prov_getSigner := None |}.

Definition createProvider (options : fields) : error + Provider :=
  match getField "provider" options with
  | VStr "mainnet" => inr wallet
  | VStr "testnet" => inr testnetWallet
  | _ => inl (Error "unsupported network")
  end.

Definition providerNetwork (p : Provider) : Network + error :=
  match prov_self p with
  | VHost "testnet-wallet" => inl testnet
  | _ => inl mainnet
  end.

Definition decimal (n : Z) : string :=
  DecimalString.NilZero.string_of_int (Z.to_int n).

Definition show (v : value) : string :=
  match v with
  | VNum n | VBig n => decimal n
  | VStr s => s
  | VBool true => "true"
  | VBool false => "false"
  | VUndefined => "undefined"
  | VNull => "null"
  | VNaN => "NaN"
  | VErr e => err_name e +:+ ": " +:+ err_message e
  | _ => "[object Object]"
  end.

Definition number (s : string) : value :=
  match DecimalString.NilZero.int_of_string s with
  | Some d => VNum (Z.of_int d)
  | None => VNaN
  end.

(** The amount taken as a mantissa, whatever the flag. *)
Definition bigNumber (mantissa : bool) (amount : value) : error + value :=
  match amount with
  | VNum n | VBig n => inr (VBig n)
  | VStr s => match number s with
              | VNum n => inr (VBig n)
              | _ => inl (Error "invalid BigNumber string")
              end
  | _ => inl (Error "invalid BigNumber value")
  end.

Definition env (respond : request -> response) : Env :=
  {| address := addresses;
     vTokens := markets;
     abi := abis;
     respond := respond;
     _createProvider := createProvider;
     getProviderNetwork := providerNetwork;
     toString := show;
     toNumber := number;
     amountToBigNumber := bigNumber;
     vToken_exports := ["supply"; "redeem"; "borrow"; "repayBorrow"];
     priceFeed_exports := ["getPrice"];
     gov_exports := ["castVote"; "castVoteBySig"; "createVoteSignature"] |}.

(** Library responses: every call succeeds with [v], fails with [e], or
    throws [e] before returning a promise. *)
Definition succeeds (v : value) (_ : request) : response := Promise (Fulfilled v).
Definition fails (e : error) (_ : request) : response := Promise (Rejected e).

Definition instanceOf (p : Provider) (promise : option (Network + error))
    (network : option Network) : UcoreInstance :=
  {| _originalProvider := VStr "mainnet";
     _provider := p;
     _networkPromise := promise;
     _network := network;
     decimals := match network with Some _ => Some ConstantsDecimals | None => None end;
     bindings := ∅ |}.

(** An instance as the constructor leaves it (network pending), and one
    whose network promise has settled. *)
Definition pending (p : Provider) (n : Network) : UcoreInstance :=
  instanceOf p (Some (inl n)) None.

Definition ready (p : Provider) (n : Network) : UcoreInstance :=
  instanceOf p None (Some n).

Definition decimals0 : gmap string Z := {[ "USDC" := 6; "USDT" := 6; "SXP" := 18 ]}.

(** A library that answers every request: a read with [4], a
    transaction with its hash, [sign] with a signature. *)
Definition signature : value :=
  VObj true [("v", VStr "0x1b"); ("r", VStr "0x13"); ("s", VStr "0x1d")].

Definition answers (r : request) : response :=
  match r with
  | Read _ _ _ _ => Promise (Fulfilled (VBig 4))
  | Trx _ _ _ _ => Promise (Fulfilled (VStr "0xtx"))
  | Sign _ _ _ _ _ => Promise (Fulfilled signature)
  end.

Definition start (i : UcoreInstance) : world :=
  {| this := i; constants_decimals := decimals0; log := [] |}.

(** The world of an instance on mainnet whose network is being
    identified, and the same once [netId] has waited for it. *)
Definition waiting : world := start (pending wallet mainnet).
Definition identified : world := snd (netId waiting).

(** [new Ucore()] in environment [e]. *)
Definition built (e : Env) : UcoreInstance :=
  match Ucore e VUndefined [] with
  | inr i => i
  | inl _ => pending wallet mainnet
  end.

Definition builtOn (e : Env) (network : string) : UcoreInstance :=
  match Ucore e (VStr network) [] with
  | inr i => i
  | inl _ => pending wallet mainnet
  end.

Definition upper : string := "0x5AAEB6053F3E94C9B9A09F33669435E7EF1BEAED".
Definition lower : string := "0x5aaeb6053f3e94c9b9a09f33669435e7ef1beaed".

End Demo.

(** ** Vocabulary of the statements *)

(** How a response settles the promise of a function that awaits or
    returns it outside of a [try]. *)
Definition settle (r : response) : outcome value :=
  match r with
  | Throws e => Throw e
  | Promise (Fulfilled v) => Return v
  | Promise (Rejected e) => Throw e
  end.

(** The address table of the network an instance has resolved, when
    constants.ts has one for it. *)
Definition tableOf (env : Env) (i : UcoreInstance) : option (gmap string string) :=
  n ← _network i;
  address env !! net_name n.

(** A market symbol with ['v'] in front unless it starts with it. *)
Definition vSymbol (s : string) : string :=
  match s with
  | String "v" _ => s
  | _ => "v" +:+ s
  end.

(** The tag a function's errors carry, and whether a message carries it. *)
Definition tag (fname : string) : string := "Ucore [" +:+ fname +:+ "] | ".

Definition tagged (fname : string) (e : error) : bool :=
  Js.startsWith (tag fname) (err_message e).

(** The options of a Controller transaction of controller.ts. *)
Definition controllerOptions (env : Env) (i : UcoreInstance) (options : fields) : fields :=
  spread [("_ucoreProvider", prov_self (_provider i)); ("abi", abi env "Controller")]
         options.



(** The signer [createDelegateSignature] signs with. *)
Definition signerOf (p : Provider) : value :=
  match prov_getSigner p with
  | Some s => s
  | None => prov_self p
  end.

(** A run surfaces the rejections of the library: whenever it has issued
    a request and the library's promise for the last one is rejected, the
    run's own promise is rejected with the same error. *)
Definition surfaces (env : Env) (run : async value) : Prop :=
  forall w o w' r e,
    run w = (o, w') ->
    log w' = (log w ++ [r])%list ->
    respond env r = Promise (Rejected e) ->
    o = Throw e.

(** What [getMintableUAI] makes of the result of its read. *)
Definition mintableResult (env : Env) (result : value) : async value :=
  let contractError :=
    throw (Error ("Ucore [getMintableUAI] | " +:+ "Contract error occured")) in
  match result with
  | VUndefined | VNull => throw (TypeError "length")
  | _ =>
      if greaterThanOne (lengthOf result) then
        s0 ← callToString env (indexAt 0 result);
        if String.eqb s0 "0" then
          s1 ← callToString env (indexAt 1 result);
          mret (VStr s1)
        else contractError
      else contractError
  end.

(** The names index.ts binds to functions of the ./ucore module that
    exist, and those it binds to [comp.<name>] for a name the module does
    not export. *)
Definition boundNames : list string :=
  ["claimUcore"; "delegate"; "delegateBySig"; "createDelegateSignature"].

Definition vaiNames : list string :=
  ["getMintableVAI"; "getVAIMintRate"; "mintVAIGuardianPaused";
   "repayVAIGuardianPaused"; "mintedVAIOf"; "mintedVAIs"; "vaiController";
   "vaiMintRate"; "mintVAI"; "repayVAI"].

(** Whether a request is a read, and whether a property name is one of
    an object's fields. *)
Definition isRead (r : request) : bool :=
  match r with
  | Read _ _ _ _ => true
  | _ => false
  end.

Definition hasField (k : string) (fs : fields) : bool :=
  existsb (String.eqb k) (fst <$> fs).

(** A run that leaves the world as it is. *)
Definition quiet {A : Type} (run : async A) : Prop :=
  forall w o w', run w = (o, w') -> w' = w.

(** A run that leaves the instance and the [decimals] object as they are
    and issues at most one request, a read. *)
Definition readsOnly {A : Type} (run : async A) : Prop :=
  forall w o w',
    run w = (o, w') ->
    this w' = this w /\ constants_decimals w' = constants_decimals w
    /\ (log w' = log w
        \/ exists a m ps os, log w' = (log w ++ [Read a m ps os])%list).

(** A second deployment, with a UcoreLens contract, and a library that
    answers the lens read with a record of balances. *)
Module Lens.

Definition lensAddress : string := "0x6666666666666666666666666666666666666666".

Definition table : gmap string string :=
  <["UcoreLens" := lensAddress]> Demo.table.

Definition metadata : value :=
  VObj true [("balance", VBig 10); ("votes", VBig 0); ("delegate", VStr Demo.user);
             ("allocated", VBig 250)].

Definition answers (r : request) : response :=
  match r with
  | Read _ "getXVSBalanceMetadataExt" _ _ => Promise (Fulfilled metadata)
  | _ => Demo.answers r
  end.

Definition env : Env :=
  {| address := {[ "mainnet" := table ]};
     vTokens := Demo.markets;
     abi := Demo.abis;
     respond := answers;
     _createProvider := Demo.createProvider;
     getProviderNetwork := Demo.providerNetwork;
     toString := Demo.show;
     toNumber := Demo.number;
     amountToBigNumber := Demo.bigNumber;
     vToken_exports := [];
     priceFeed_exports := [];
     gov_exports := [] |}.

End Lens.

(** How the response to a transaction issued inside a [try] whose
    [catch] returns the error settles the function's promise: what the
    library throws is returned as a value with the prefix, what it
    promises is handed over. *)
Definition settleTried (errorPrefix : string) (r : response) : outcome value :=
  match r with
  | Throws e => Return (VErr (prefixed errorPrefix e))
  | Promise (Fulfilled v) => Return v
  | Promise (Rejected e) => Throw e
  end.

(** The two states of an instance: waiting for its network (with the
    promise, without network and [decimals]) or identified (without the
    promise, with both). *)
Definition isWaiting (i : UcoreInstance) : Prop :=
  is_Some (_networkPromise i) /\ _network i = None /\ decimals i = None.

Definition isIdentified (i : UcoreInstance) : Prop :=
  _networkPromise i = None /\ is_Some (_network i)
  /\ decimals i = Some ConstantsDecimals.





(** EIP-55, written from the standard: an address is ['0x'] and 40
    hexadecimal digits; in its checksummed form the digit at position
    [i] is a capital exactly when it is a letter and the [i]-th nibble
    of the Keccak-256 digest of the 40 lower-case digits is 8 or more.
    An address passes validation when its letters are all small, all
    capital, or capitalized as in its checksummed form. *)
Module Eip55.








End Eip55.

(** Closing a goal by evaluation, and a membership in a concrete list. *)
Ltac evaluated := vm_compute; reflexivity.
Ltac member := apply (bool_decide_unpack _); vm_compute; exact I.

(** * Properties *)

(** ** Test vectors: Keccak-256 and the EIP-55 example address *)

Example keccak256_empty :
  Keccak.keccak256 [] =
  "0xc5d2460186f7233c927e7db2dcc703c0e500b653ca82273b7bfad8045d85a470".
Proof. vm_compute. reflexivity. Qed.

Example keccak256_abc :
  Keccak.keccak256 [97; 98; 99] =
  "0x4e03657aea45a94fc7d47ba826c8d667c0d1e6e33a64a036ec44f58fa12d6c45".
Proof. vm_compute. reflexivity. Qed.

Example toChecksumAddress_eip55 :
  Checksum.toChecksumAddress "0x5aaeb6053f3e94c9b9a09f33669435e7ef1beaed"
  = Some "0x5aAeb6053F3E94C9b9A09f33669435E7Ef1BeAed".
Proof. vm_compute. reflexivity. Qed.

Example toChecksumAddress_short :
  Checksum.toChecksumAddress "0x5aaeb6053f3e94c9b9a09f33669435e7ef1beae" = None.
Proof. vm_compute. reflexivity. Qed.


(** ** The monad *)

Section Laws.

Context {A B : Type}.

Lemma bind_Return (m : async A) (f : A -> async B) w a w' :
  m w = (Return a, w') -> (m ≫= f) w = f a w'.
Proof. intros H. unfold mbind, async_bind. now rewrite H. Qed.

Lemma bind_Throw (m : async A) (f : A -> async B) w e w' :
  m w = (Throw e, w') -> (m ≫= f) w = (Throw e, w').
Proof. intros H. unfold mbind, async_bind. now rewrite H. Qed.

Lemma bind_mret (a : A) (f : A -> async B) w : (mret a ≫= f) w = f a w.
Proof. reflexivity. Qed.


Lemma bind_getThis (f : UcoreInstance -> async B) w :
  (getThis ≫= f) w = f (this w) w.
Proof. reflexivity. Qed.

Lemma bind_await_Fulfilled (v : value) (f : value -> async B) w :
  (await (Fulfilled v) ≫= f) w = f v w.
Proof. reflexivity. Qed.

Lemma bind_await_Rejected (e : error) (f : value -> async B) w :
  (await (Rejected e) ≫= f) w = (Throw e, w).
Proof. reflexivity. Qed.

End Laws.

Section Properties.

Variable env : Env.

Lemma invoke_await (r : request) w :
  (invoke env r ≫= await) w = (settle (respond env r), logged r w).
Proof.
  unfold mbind, async_bind, invoke, settle.
  destruct (respond env r) as [e | [v | e]]; reflexivity.
Qed.

Lemma addressOf_table key w t :
  tableOf env (this w) = Some t ->
  addressOf env key w = (Return (entry t key), w).
Proof.
  unfold tableOf, addressOf, networkName, addressIn, getThis, mbind, async_bind, option_bind.
  destruct (_network (this w)) as [n |]; [| discriminate].
  cbn. intros ->. reflexivity.
Qed.

Lemma addressOf_world key w o w' :
  addressOf env key w = (o, w') -> w' = w.
Proof.
  unfold addressOf, networkName, addressIn, getThis, mbind, async_bind,
    mret, async_ret, throw.
  destruct (_network (this w)) as [n |];
    [destruct (address env !! net_name n) |]; intros [= _ <-]; reflexivity.
Qed.

Lemma prependV_string (s : string) w :
  prependV env (VStr s) w = (Return (VStr (vSymbol s)), w).
Proof.
  destruct s as [| c r]; [reflexivity |].
  destruct c as [[] [] [] [] [] [] [] []]; reflexivity.
Qed.

Lemma exitMarket_symbol (c : ascii) (r : string) :
  (if isV (index0 (VStr (String c r))) then String c r else "v" +:+ String c r)
  = vSymbol (String c r).
Proof. destruct c as [[] [] [] [] [] [] [] []]; reflexivity. Qed.

(** ** controller.ts *)

Lemma exitMarket_malformed (market : value) (options : fields) (w w1 : world) :
  netId w = (Return tt, w1) ->
  (forall s, market = VStr s -> s = "") ->
  exitMarket env market options w
  = (Throw (Error ("Ucore [exitMarkets] | " +:+
                   "Argument `market` must be a string of a vToken market name.")),
     w1).
Proof.
  intros Hnet Hbad. unfold exitMarket. rewrite (bind_Return _ _ _ _ _ Hnet).
  destruct market as [| | | | | [| c r] | | | | | |]; try reflexivity.
  now specialize (Hbad _ eq_refl).
Qed.

(** C5. Once the network is identified, [exitMarket] throws its
    argument error exactly on a market that is not a non-empty string,
    throws its unrecognized-market error exactly on a non-empty string
    whose symbol (with ['v'] in front unless it starts with it) is not
    in [vTokens], and in both cases issues no request; on every other
    market, on a network that has an address table, it issues the one
    transaction [exitMarket] to the table's Controller with the market's
    vToken address as only parameter and its promise settles as the
    library's does. *)
Theorem exitMarket_validation (market : value) (options : fields) (w w1 : world) :
  netId w = (Return tt, w1) ->
  ((forall s, market = VStr s -> s = "") ->
     exitMarket env market options w
     = (Throw (Error ("Ucore [exitMarkets] | " +:+
                      "Argument `market` must be a string of a vToken market name.")),
        w1))
  /\ (forall s, market = VStr s -> s <> "" -> vSymbol s ∉ vTokens env ->
        exitMarket env market options w
        = (Throw (Error ("Ucore [exitMarkets] | " +:+ "Provided market `" +:+
                         vSymbol s +:+ "` is not a recognized vToken.")),
           w1))
  /\ (forall s t, market = VStr s -> s <> "" -> vSymbol s ∈ vTokens env ->
        tableOf env (this w1) = Some t ->
        let r := Trx (entry t "Controller") "exitMarket" [entry t (vSymbol s)]
                     (controllerOptions env (this w1) options) in
        exitMarket env market options w = (settle (respond env r), logged r w1)).
Proof.
  intros Hnet. split; [now apply exitMarket_malformed |].
  unfold exitMarket. rewrite (bind_Return _ _ _ _ _ Hnet).
  split.
  - intros s -> Hs Hnot. destruct s as [| c r]; [contradiction |].
    rewrite exitMarket_symbol. unfold includes.
    rewrite bool_decide_eq_false_2 by assumption. reflexivity.
  - intros s t -> Hs Hin Ht. cbv zeta. destruct s as [| c r]; [contradiction |].
    rewrite exitMarket_symbol. unfold includes.
    rewrite bool_decide_eq_true_2 by assumption.
    rewrite (bind_Return _ _ _ _ _ (addressOf_table _ _ _ Ht)).
    rewrite (bind_Return _ _ _ _ _ (addressOf_table _ _ _ Ht)).
    unfold getThis at 1. cbn beta.
    apply invoke_await.
Qed.

Lemma netId_log w o w' : netId w = (o, w') -> log w' = log w.
Proof.
  unfold netId. destruct (_networkPromise (this w)) as [[n | e] |].
  - destruct (networkResolved n (this w) (constants_decimals w)).
    intros [= _ <-]. reflexivity.
  - intros [= _ <-]. reflexivity.
  - intros [= _ <-]. reflexivity.
Qed.

Lemma prependV_world m w o w' : prependV env m w = (o, w') -> w' = w.
Proof.
  unfold prependV, mret, async_ret, throw.
  destruct m; try destruct (isV _); intros [= _ <-]; reflexivity.
Qed.

(** The loop of [enterMarkets] leaves the world as it is. *)
Lemma enterMarkets_loop_world errorPrefix ms : forall acc w o w',
  enterMarkets_loop env errorPrefix ms acc w = (o, w') -> w' = w.
Proof.
  induction ms as [| m ms IH]; intros acc w o w'; cbn [enterMarkets_loop].
  - intros [= _ <-]. reflexivity.
  - unfold mbind at 1, async_bind at 1.
    destruct (prependV env m w) as [[m' | e] w0] eqn:Hp;
      apply prependV_world in Hp; subst w0.
    + destruct (includes (vTokens env) m').
      * unfold mbind at 1, async_bind at 1.
        destruct (addressOf env (str env m') w) as [[a | e] w0] eqn:Ha;
          apply addressOf_world in Ha; subst w0.
        -- apply IH.
        -- intros [= _ <-]. reflexivity.
      * intros [= _ <-]. reflexivity.
    + intros [= _ <-]. reflexivity.
Qed.

Lemma enterMarkets_loop_recognized errorPrefix t (ss : list string) : forall acc w,
  tableOf env (this w) = Some t ->
  Forall (fun s => vSymbol s ∈ vTokens env) ss ->
  enterMarkets_loop env errorPrefix (VStr <$> ss) acc w
  = (Return (acc ++ ((fun s => entry t (vSymbol s)) <$> ss))%list, w).
Proof.
  induction ss as [| s ss IH]; intros acc w Ht Hall; cbn [enterMarkets_loop fmap list_fmap].
  - now rewrite app_nil_r.
  - inversion_clear Hall as [| ? ? Hs Hss].
    rewrite (bind_Return _ _ _ _ _ (prependV_string s w)).
    unfold includes. rewrite bool_decide_eq_true_2 by assumption.
    rewrite (bind_Return _ _ _ _ _ (addressOf_table _ _ _ Ht)).
    change (list_fmap _ _ ?f ss) with (f <$> ss).
    rewrite (IH _ _ Ht Hss), <- app_assoc. reflexivity.
Qed.

Lemma enterMarkets_loop_unrecognized errorPrefix (ss : list string) : forall acc w,
  Exists (fun s => vSymbol s ∉ vTokens env) ss ->
  exists e, enterMarkets_loop env errorPrefix (VStr <$> ss) acc w = (Throw e, w).
Proof.
  induction ss as [| s ss IH]; intros acc w Hex; [now inversion Hex |].
  cbn [enterMarkets_loop fmap list_fmap].
  rewrite (bind_Return _ _ _ _ _ (prependV_string s w)). unfold includes.
  destruct (decide (vSymbol s ∈ vTokens env)) as [Hin | Hnot].
  - rewrite bool_decide_eq_true_2 by assumption.
    unfold mbind at 1, async_bind at 1.
    destruct (addressOf env (str env (VStr (vSymbol s))) w) as [[a | e] w0] eqn:Ha;
      apply addressOf_world in Ha; subst w0.
    + apply IH. inversion_clear Hex; [contradiction | assumption].
    + now exists e.
  - rewrite bool_decide_eq_false_2 by assumption. eexists. reflexivity.
Qed.

Lemma enterMarkets_recognized (options : fields) (ss : list string)
    (w w1 : world) (t : gmap string string) :
  netId w = (Return tt, w1) ->
  tableOf env (this w1) = Some t ->
  Forall (fun s => vSymbol s ∈ vTokens env) ss ->
  let r := Trx (entry t "Controller") "enterMarkets"
               [VArr ((fun s => entry t (vSymbol s)) <$> ss)]
               (controllerOptions env (this w1) options) in
  enterMarkets env (VArr (VStr <$> ss)) options w
  = (settle (respond env r), logged r w1).
Proof.
  intros Hnet Ht Hall. cbv zeta. unfold enterMarkets.
  rewrite (bind_Return _ _ _ _ _ Hnet).
  rewrite (bind_Return _ _ _ _ _
             (enterMarkets_loop_recognized "Ucore [enterMarkets] | " t ss [] w1 Ht Hall)).
  rewrite (bind_Return _ _ _ _ _ (addressOf_table _ _ _ Ht)).
  rewrite bind_getThis, app_nil_l.
  apply invoke_await.
Qed.

(** An argument that is neither a string nor an array (nor absent) is
    refused before any request. *)
Lemma enterMarkets_not_array (markets : value) (options : fields) (w w1 : world) :
  netId w = (Return tt, w1) ->
  typeof markets <> "string" -> isArray markets = false -> markets <> VUndefined ->
  enterMarkets env markets options w
  = (Throw (Error ("Ucore [enterMarkets] | " +:+
                   "Argument `markets` must be an array or string.")), w1).
Proof.
  intros Hnet Hstr Harr Hdef. unfold enterMarkets.
  destruct markets; try discriminate Harr; try contradiction;
    try (now rewrite (bind_Return _ _ _ _ _ Hnet)).
Qed.

(** C4. [enterMarkets] treats a string as the one-element array of it;
    on an array of symbols it puts ['v'] in front of each symbol that
    does not start with it; when one of the resulting symbols is not in
    [vTokens] it throws and issues no request; when all are, on an
    identified network that has an address table, it issues the one
    transaction [enterMarkets] to the table's Controller, with the array
    of the symbols' addresses as only parameter, and its promise settles
    as the library's does. *)
Theorem enterMarkets_forwards (options : fields) (w : world) :
  (forall s, enterMarkets env (VStr s) options w
             = enterMarkets env (VArr [VStr s]) options w)
  /\ (forall ss, Exists (fun s => vSymbol s ∉ vTokens env) ss ->
        exists e w', enterMarkets env (VArr (VStr <$> ss)) options w = (Throw e, w')
                     /\ log w' = log w)
  /\ (forall ss w1 t,
        netId w = (Return tt, w1) ->
        tableOf env (this w1) = Some t ->
        Forall (fun s => vSymbol s ∈ vTokens env) ss ->
        let r := Trx (entry t "Controller") "enterMarkets"
                     [VArr ((fun s => entry t (vSymbol s)) <$> ss)]
                     (controllerOptions env (this w1) options) in
        enterMarkets env (VArr (VStr <$> ss)) options w
        = (settle (respond env r), logged r w1)).
Proof.
  split; [reflexivity | split].
  - intros ss Hex. unfold enterMarkets.
    unfold mbind at 1, async_bind at 1.
    destruct (netId w) as [[[] | e] w1] eqn:Hnet.
    + destruct (enterMarkets_loop_unrecognized "Ucore [enterMarkets] | " ss [] w1 Hex)
        as [e He].
      exists e, w1. rewrite (bind_Throw _ _ _ _ _ He).
      split; [reflexivity | now apply netId_log in Hnet].
    + exists e, w1. split; [reflexivity | now apply netId_log in Hnet].
  - intros ss w1 t. apply enterMarkets_recognized.
Qed.

(** ** ucore.ts: delegation *)


Lemma checkAddress_ok errorPrefix s a w :
  Checksum.toChecksumAddress s = Some a ->
  checkAddress errorPrefix (VStr s) w = (Return a, w).
Proof. unfold checkAddress. now intros ->. Qed.


Lemma networkId_network w n :
  _network (this w) = Some n -> networkId w = (Return (net_id n), w).
Proof. unfold networkId, getThis, mbind, async_bind. now intros ->. Qed.

Lemma callToString_defined (v : value) w :
  v <> VUndefined -> v <> VNull -> callToString env v w = (Return (str env v), w).
Proof. destruct v; intros; try reflexivity; contradiction. Qed.

(** C6. On an identified network [n] that has an address table,
    [createDelegateSignature] first reads
    ['function nonces(address) returns (uint)'] of the table's UCORE
    address for the user's address (the provider's [address], or what
    its [getAddress] answers), through the original provider, then asks
    [sign] for a signature of the typed data with domain
    [name = 'Ucore'], [chainId = n.id], [verifyingContract] the UCORE
    address, primary type ['Delegation'], message [delegatee] (the
    argument), [nonce] (the number read) and [expiry] (the argument,
    [10e9] when absent), and the types table of the two records; its
    promise settles as that of [sign]. *)
Theorem createDelegateSignature_typedData (delegatee expiry : value)
    (w w1 : world) (n : Network) (t : gmap string string) (user result : value) :
  netId w = (Return tt, w1) ->
  _network (this w1) = Some n ->
  address env !! net_name n = Some t ->
  let p := _provider (this w1) in
  (truthy (prov_address p) = true /\ user = prov_address p)
  \/ (truthy (prov_address p) = false
      /\ prov_getAddress p = Some (Fulfilled user))
  \/ (truthy (prov_address p) = false
      /\ prov_getAddress p = None /\ user = prov_address p) ->
  let read := Read (entry t "UCORE") "function nonces(address) returns (uint)"
                   [user] [("provider", _originalProvider (this w1))] in
  respond env read = Promise (Fulfilled result) ->
  result <> VUndefined -> result <> VNull ->
  let digits := match result with VStr s => s | _ => toString env result end in
  let domain :=
    VObj true [("name", VStr "Ucore"); ("chainId", VNum (net_id n));
               ("verifyingContract", entry t "UCORE")] in
  let message :=
    VObj true [("delegatee", delegatee);
               ("nonce", toNumber env digits);
               ("expiry", match expiry with
                          | VUndefined => VNum 10000000000
                          | _ => expiry
                          end)] in
  let field name type := VObj true [("name", VStr name); ("type", VStr type)] in
  let types :=
    VObj true
      [("EIP712Domain",
        VArr [field "name" "string"; field "chainId" "uint256";
              field "verifyingContract" "address"]);
       ("Delegation",
        VArr [field "delegatee" "address"; field "nonce" "uint256";
              field "expiry" "uint256"])] in
  let signer := match prov_getSigner p with Some s => s | None => prov_self p end in
  let r := Sign domain "Delegation" message types signer in
  createDelegateSignature env delegatee expiry w
  = (settle (respond env r), logged r (logged read w1)).
Proof.
  intros Hnet Hn Ht p Hway read Hread Hu Hnull. cbv zeta.
  assert (tableOf env (this w1) = Some t) as Htab
      by (unfold tableOf; rewrite Hn; exact Ht).
  assert (userAddressOf (_provider (this w1)) w1 = (Return user, w1)) as Huser.
  { unfold userAddressOf. fold p.
    destruct Hway as [[-> ->] | [[-> ->] | (-> & -> & ->)]]; reflexivity. }
  unfold createDelegateSignature.
  rewrite (bind_Return _ _ _ _ _ Hnet).
  rewrite bind_getThis.
  rewrite (bind_Return _ _ _ _ _ (addressOf_table _ _ _ Htab)).
  rewrite (bind_Return _ _ _ _ _ (networkId_network _ _ Hn)).
  rewrite (bind_Return _ _ _ _ _ Huser).
  subst read p.
  assert (invoke env (noncesRead (entry t "UCORE") user (_originalProvider (this w1))) w1
          = (Return (Fulfilled result),
             logged (noncesRead (entry t "UCORE") user (_originalProvider (this w1))) w1))
    as Hinv by (unfold invoke, noncesRead; now rewrite Hread).
  rewrite (bind_Return _ _ _ _ _ Hinv).
  rewrite bind_await_Fulfilled.
  rewrite (bind_Return _ _ _ _ _ (callToString_defined _ _ Hu Hnull)).
  unfold mbind, async_bind, invoke, settle, str, delegationTypes, noncesRead.
  match goal with
  | |- context [respond env (Sign ?d ?pt ?m ?ty ?sg)] =>
      destruct (respond env (Sign d pt m ty sg)) as [e | [v | e]]; reflexivity
  end.
Qed.

(** ** ucore.ts: errors of the library *)

Lemma log_grows_not (l : list request) (r : request) : l <> (l ++ [r])%list.
Proof.
  intros H. apply (f_equal (@List.length _)) in H.
  rewrite length_app in H. cbn in H. lia.
Qed.

Lemma log_last (l : list request) (r r' : request) :
  (l ++ [r'])%list = (l ++ [r])%list -> r' = r.
Proof. intros H. apply app_inv_head in H. now injection H. Qed.

Lemma userAddressOf_world p w o w' : userAddressOf p w = (o, w') -> w' = w.
Proof.
  unfold userAddressOf, await, mret, async_ret, throw.
  destruct (truthy (prov_address p)); [| destruct (prov_getAddress p) as [[v | e] |]];
    intros [= _ <-]; reflexivity.
Qed.

Lemma checkAddress_world errorPrefix a w o w' :
  checkAddress errorPrefix a w = (o, w') -> w' = w.
Proof.
  unfold checkAddress, mret, async_ret, throw.
  destruct a; try (intros [= _ <-]; reflexivity).
  destruct (Checksum.toChecksumAddress s); intros [= _ <-]; reflexivity.
Qed.

Lemma callToString_world v w o w' : callToString env v w = (o, w') -> w' = w.
Proof.
  unfold callToString, mret, async_ret, throw.
  destruct v; intros [= _ <-]; reflexivity.
Qed.

(** A transaction prepared inside a [try] whose [catch] returns the
    error: the promise of the transaction is handed over as it is. *)
Lemma tried_transaction_surfaces (prepare : async request) (errorPrefix : string)
    (w1 : world) o w' l r e :
  (forall o' w2, prepare w1 = (o', w2) -> w2 = w1) ->
  log w1 = l ->
  (p ← tryCatch (q ← prepare; invoke env q) (returnError errorPrefix); await p) w1
  = (o, w') ->
  log w' = (l ++ [r])%list ->
  respond env r = Promise (Rejected e) ->
  o = Throw e.
Proof.
  intros Hsame Hl Hrun Hlog Hr. subst l.
  unfold tryCatch, returnError, invoke, mbind, async_bind, mret, async_ret in Hrun.
  destruct (prepare w1) as [[q | e0] w2]; specialize (Hsame _ _ eq_refl); subst w2.
  - destruct (respond env q) as [e0 | p] eqn:Hq; cbn in Hrun.
    + injection Hrun as <- <-. cbn in Hlog. apply log_last in Hlog. congruence.
    + destruct p as [v | e1]; cbn in Hrun; injection Hrun as <- <-;
        cbn in Hlog; apply log_last in Hlog; congruence.
  - cbn in Hrun. injection Hrun as <- <-. now apply log_grows_not in Hlog.
Qed.

Lemma claimUcore_surfaces options : surfaces env (claimUcore env options).
Proof.
  intros w o w' r e Hrun Hlog Hr. unfold claimUcore in Hrun.
  unfold mbind at 1, async_bind at 1 in Hrun.
  destruct (netId w) as [[[] | e0] w1] eqn:Hnet; apply netId_log in Hnet.
  - refine (tried_transaction_surfaces
              (i ← getThis;
               userAddress ← userAddressOf (_provider i);
               controllerAddress ← addressOf env "Controller";
               mret (Trx controllerAddress "claimUcore(address)" [userAddress]
                         (withProvider env options (_provider i) "Controller")))
              _ w1 o w' (log w) r e _ Hnet _ Hlog Hr).
    + intros o' w2. rewrite bind_getThis.
      unfold mbind, async_bind, mret, async_ret.
      destruct (userAddressOf _ w1) as [[u | e1] w3] eqn:Hu;
        apply userAddressOf_world in Hu; subst w3; [| now intros [= _ <-]].
      destruct (addressOf env "Controller" w1) as [[c | e1] w3] eqn:Hc;
        apply addressOf_world in Hc; subst w3; now intros [= _ <-].
    + rewrite <- Hrun. unfold tryCatch, mbind, async_bind, getThis, mret, async_ret.
      destruct (userAddressOf _ w1) as [[u | e1] w3]; [| reflexivity].
      destruct (addressOf env "Controller" w3) as [[c | e1] w4]; reflexivity.
  - injection Hrun as <- <-. rewrite Hnet in Hlog. now apply log_grows_not in Hlog.
Qed.

Lemma uaiTransaction_surfaces method checkPrefix catchPrefix amount options :
  surfaces env (uaiTransaction env method checkPrefix catchPrefix amount options).
Proof.
  intros w o w' r e Hrun Hlog Hr. unfold uaiTransaction in Hrun.
  unfold mbind at 1, async_bind at 1 in Hrun.
  destruct (netId w) as [[[] | e0] w1] eqn:Hnet; apply netId_log in Hnet.
  - destruct (negb (isAmount amount)).
    { injection Hrun as <- <-. rewrite Hnet in Hlog. now apply log_grows_not in Hlog. }
    unfold mbind at 1, async_bind at 1, liftEither in Hrun.
    destruct (amountToBigNumber env _ amount) as [e0 | big].
    { injection Hrun as <- <-. rewrite Hnet in Hlog. now apply log_grows_not in Hlog. }
    cbn [mret async_ret] in Hrun.
    refine (tried_transaction_surfaces
              (controllerAddress ← addressOf env "Controller";
               i ← getThis;
               mret (Trx controllerAddress method [big]
                         (withProvider env options (_provider i) "Controller")))
              _ w1 o w' (log w) r e _ Hnet _ Hlog Hr).
    + intros o' w2. unfold mbind, async_bind, getThis, mret, async_ret.
      destruct (addressOf env "Controller" w1) as [[c | e1] w3] eqn:Hc;
        apply addressOf_world in Hc; subst w3; now intros [= _ <-].
    + rewrite <- Hrun. unfold tryCatch, mbind, async_bind, getThis, mret, async_ret.
      destruct (addressOf env "Controller" w1) as [[c | e1] w3]; reflexivity.
  - injection Hrun as <- <-. rewrite Hnet in Hlog. now apply log_grows_not in Hlog.
Qed.

Lemma mintableResult_world result w o w' :
  mintableResult env result w = (o, w') -> w' = w.
Proof.
  assert (forall (m : async value), m = mintableResult env result ->
            m w = (o, w') -> w' = w) as H; [| now apply H].
  intros m ->. unfold mintableResult, mbind, async_bind, mret, async_ret, throw.
  destruct result; try (intros [= _ <-]; reflexivity);
    (destruct (greaterThanOne _); [| intros [= _ <-]; reflexivity];
     destruct (callToString env _ w) as [[s0 | e0] w2] eqn:H0;
     apply callToString_world in H0; subst w2; [| intros [= _ <-]; reflexivity];
     destruct (String.eqb s0 "0"); [| intros [= _ <-]; reflexivity];
     destruct (callToString env _ w) as [[s1 | e1] w2] eqn:H1;
     apply callToString_world in H1; subst w2; intros [= _ <-]; reflexivity).
Qed.

(** [getMintableUAI], once its address is checked and the Controller
    found. *)
Lemma getMintableUAI_run _address options w a c :
  checkAddress "Ucore [getMintableUAI] | " _address w = (Return a, w) ->
  addressOf env "Controller" w = (Return c, w) ->
  let r := Read c "getMintableUAI" [VStr a]
                (withProvider env options (_provider (this w)) "Controller") in
  getMintableUAI env _address options w
  = match respond env r with
    | Throws e => (Throw e, logged r w)
    | Promise (Rejected e) => (Throw e, logged r w)
    | Promise (Fulfilled result) => mintableResult env result (logged r w)
    end.
Proof.
  intros Ha Hc. cbv zeta. unfold getMintableUAI.
  rewrite (bind_Return _ _ _ _ _ Ha), (bind_Return _ _ _ _ _ Hc), bind_getThis.
  unfold mbind at 1, async_bind at 1, invoke.
  destruct (respond env _) as [e | [result | e]]; reflexivity.
Qed.

Lemma getMintableUAI_surfaces _address options :
  surfaces env (getMintableUAI env _address options).
Proof.
  intros w o w' r e Hrun Hlog Hr.
  destruct (checkAddress "Ucore [getMintableUAI] | " _address w) as [[a | e0] w1] eqn:Ha;
    pose proof (checkAddress_world _ _ _ _ _ Ha); subst w1.
  - destruct (addressOf env "Controller" w) as [[c | e0] w1] eqn:Hc;
      pose proof (addressOf_world _ _ _ _ Hc); subst w1.
    + rewrite (getMintableUAI_run _ _ _ _ _ Ha Hc) in Hrun.
      match type of Hrun with
      | context [respond env ?q] =>
          destruct (respond env q) as [e0 | [result | e0]] eqn:Hq
      end.
      * injection Hrun as <- <-. cbn [log logged] in Hlog. apply log_last in Hlog. congruence.
      * pose proof (mintableResult_world _ _ _ _ Hrun). subst w'.
        cbn [log logged] in Hlog. apply log_last in Hlog. congruence.
      * injection Hrun as <- <-. cbn [log logged] in Hlog. apply log_last in Hlog. congruence.
    + unfold getMintableUAI in Hrun.
      rewrite (bind_Return _ _ _ _ _ Ha), (bind_Throw _ _ _ _ _ Hc) in Hrun.
      injection Hrun as <- <-. now apply log_grows_not in Hlog.
  - unfold getMintableUAI in Hrun. rewrite (bind_Throw _ _ _ _ _ Ha) in Hrun.
    injection Hrun as <- <-. now apply log_grows_not in Hlog.
Qed.

(** ** The readiness gate *)

Lemma addressOf_unresolved key w :
  _network (this w) = None -> addressOf env key w = (Throw (TypeError "name"), w).
Proof. unfold addressOf, networkName, getThis, mbind, async_bind. now intros ->. Qed.

Lemma controllerGetter_unresolved method stringify options w :
  _network (this w) = None ->
  controllerGetter env method stringify options w = (Throw (TypeError "name"), w).
Proof.
  intros H. unfold controllerGetter.
  now rewrite (bind_Throw _ _ _ _ _ (addressOf_unresolved _ _ H)).
Qed.

Lemma mintedReader_unresolved method s a options w :
  Checksum.toChecksumAddress s = Some a ->
  _network (this w) = None ->
  mintedReader env method (VStr s) options w = (Throw (TypeError "name"), w).
Proof.
  intros Hs H. unfold mintedReader.
  rewrite (bind_Return _ _ _ _ _ (checkAddress_ok _ _ _ _ Hs)).
  now rewrite (bind_Throw _ _ _ _ _ (addressOf_unresolved _ _ H)).
Qed.

Lemma Ucore_fresh provider options i :
  Ucore env provider options = inr i ->
  _network i = None
  /\ _networkPromise i = Some (getProviderNetwork env (_provider i))
  /\ bindings i = instanceBindings env.
Proof.
  unfold Ucore. destruct (_createProvider env _); [discriminate |].
  intros [= <-]. auto.
Qed.

(** C1, at an instance fresh from the constructor, its network still
    being identified: the eight UAI reads do not wait for [netId];
    they read [this._network.name] at once, are rejected with a
    [TypeError] and leave the instance waiting, where [enterMarkets]
    waits for the network and then issues its transaction. *)
Theorem uai_reads_skip_netId (provider : value) (options opts : fields)
    (i : UcoreInstance) (network : Network) (t : gmap string string)
    (d : gmap string Z) (l : list request) (s a : string) :
  Ucore env provider options = inr i ->
  getProviderNetwork env (_provider i) = inl network ->
  address env !! net_name network = Some t ->
  Checksum.toChecksumAddress s = Some a ->
  let w := {| this := i; constants_decimals := d; log := l |} in
  let unready := (Throw (TypeError "name"), w) in
  (getUAIMintRate env opts w = unready
   /\ mintUAIGuardianPaused env opts w = unready
   /\ repayUAIGuardianPaused env opts w = unready
   /\ mintedUAIOf env (VStr s) opts w = unready
   /\ mintedUAIs env (VStr s) opts w = unready
   /\ uaiController env opts w = unready
   /\ uaiMintRate env opts w = unready
   /\ getMintableUAI env (VStr s) opts w = unready)
  /\ exists r w1,
       enterMarkets env (VArr []) opts w = (settle (respond env r), logged r w1)
       /\ _network (this w1) = Some network
       /\ log w1 = l.
Proof.
  intros Hi Hnet Ht Hs w unready.
  destruct (Ucore_fresh _ _ _ Hi) as (Hnone & Hpromise & _).
  split.
  - repeat split;
      try (apply controllerGetter_unresolved; exact Hnone);
      try (apply (mintedReader_unresolved _ _ _ _ _ Hs); exact Hnone).
    unfold getMintableUAI.
    rewrite (bind_Return _ _ _ _ _ (checkAddress_ok _ _ _ _ Hs)).
    now rewrite (bind_Throw _ _ _ _ _ (addressOf_unresolved _ w Hnone)).
  - pose (w1 := {| this := fst (networkResolved network i d);
                   constants_decimals := snd (networkResolved network i d);
                   log := l |}).
    assert (netId w = (Return tt, w1)) as Hgate.
    { unfold netId, w. cbn [this]. rewrite Hpromise, Hnet. reflexivity. }
    assert (tableOf env (this w1) = Some t) as Htab by exact Ht.
    pose proof (enterMarkets_recognized opts [] w w1 t Hgate Htab (List.Forall_nil _))
      as Hfwd.
    eexists _, w1. split; [exact Hfwd | split; reflexivity].
Qed.

(** ** Tags of the validation errors *)

(** C2, at the inputs where it fails: the argument errors of
    [exitMarket] carry the tag [exitMarkets], not [exitMarket], and the
    argument error of [repayUAI] carries the tag [mintUAI], not
    [repayUAI]. *)
Theorem validation_tags_differ (market amount : value) (options : fields)
    (w w1 : world) :
  netId w = (Return tt, w1) ->
  (forall s, market = VStr s -> s = "") ->
  isAmount amount = false ->
  exists e1 e2,
    exitMarket env market options w = (Throw e1, w1)
    /\ tagged "exitMarket" e1 = false /\ tagged "exitMarkets" e1 = true
    /\ repayUAI env amount options w = (Throw e2, w1)
    /\ tagged "repayUAI" e2 = false /\ tagged "mintUAI" e2 = true.
Proof.
  intros Hnet Hbad Hamount.
  eexists _, _. split; [exact (exitMarket_malformed market options w w1 Hnet Hbad) |].
  split; [reflexivity | split; [reflexivity |]].
  unfold repayUAI, uaiTransaction. rewrite (bind_Return _ _ _ _ _ Hnet), Hamount.
  split; [reflexivity | split; reflexivity].
Qed.

(** ** index.ts: the instance *)

Lemma exports_lookup (modl : string) (names : list string) (k : string) (v : value) :
  exports modl names !! k = Some v -> v = VFun modl k.
Proof.
  unfold exports. intros H. apply elem_of_list_to_map_2 in H.
  apply list_elem_of_fmap in H as (n & [= -> ->] & _). reflexivity.
Qed.

(** What the spreads contribute: functions of the four other modules. *)
Lemma spreads_lookup (k : string) (v : value) :
  (gov env ∪ (priceFeed env ∪ (vToken env ∪ controller))) !! k = Some v ->
  exists modl, v = VFun modl k /\ modl <> "ucore".
Proof.
  intros H.
  apply lookup_union_Some_raw in H as [H | [_ H]];
    [exists "gov"; split; [now apply exports_lookup in H | discriminate] |].
  apply lookup_union_Some_raw in H as [H | [_ H]];
    [exists "priceFeed"; split; [now apply exports_lookup in H | discriminate] |].
  apply lookup_union_Some_raw in H as [H | [_ H]];
    [exists "vToken"; split; [now apply exports_lookup in H | discriminate] |].
  exists "controller"; split; [now apply exports_lookup in H | discriminate].
Qed.

(** Every function-valued property of an instance. *)
Lemma instanceBindings_lookup (k : string) (v : value) :
  instanceBindings env !! k = Some v ->
  (k ∈ boundNames /\ v = VFun "ucore" k)
  \/ (k ∈ vaiNames /\ v = VUndefined)
  \/ (exists modl, v = VFun modl k /\ modl <> "ucore").
Proof.
  unfold instanceBindings. cbn [fold_left]. unfold bindComp.
  repeat (rewrite lookup_insert; case_decide;
          [ subst k; intros [= <-];
            first [ left; split;
                    [apply (bool_decide_unpack _); vm_compute; exact I
                    | vm_compute; reflexivity]
                  | right; left; split;
                    [apply (bool_decide_unpack _); vm_compute; exact I
                    | vm_compute; reflexivity] ]
          | ]).
  intros Hspread. right; right. now apply spreads_lookup.
Qed.

(** C10. The instance the constructor returns has [claimUcore],
    [delegate], [delegateBySig] and [createDelegateSignature] bound to
    the functions of these names of the ./ucore module; its properties
    with the ten VAI names are present and [undefined]; and no property
    of it, under any name, is bound to [getMintableUAI],
    [getUAIMintRate], [mintUAI] or [repayUAI] of that module. *)
Theorem instance_bindings (provider : value) (options : fields) (i : UcoreInstance) :
  Ucore env provider options = inr i ->
  (forall k, k ∈ boundNames -> bindings i !! k = Some (VFun "ucore" k))
  /\ (forall k, k ∈ vaiNames -> bindings i !! k = Some VUndefined)
  /\ (forall k f, f ∈ ["getMintableUAI"; "getUAIMintRate"; "mintUAI"; "repayUAI"] ->
                  bindings i !! k <> Some (VFun "ucore" f)).
Proof.
  intros Hi. destruct (Ucore_fresh _ _ _ Hi) as (_ & _ & ->).
  split; [| split].
  - intros k Hk. unfold boundNames in Hk.
    repeat (apply elem_of_cons in Hk as [-> | Hk];
            [ unfold instanceBindings; cbn [fold_left]; unfold bindComp;
              repeat (rewrite lookup_insert_ne by discriminate);
              now rewrite lookup_insert_eq | ]).
    now apply elem_of_nil in Hk.
  - intros k Hk. unfold vaiNames in Hk.
    repeat (apply elem_of_cons in Hk as [-> | Hk];
            [ unfold instanceBindings; cbn [fold_left]; unfold bindComp;
              repeat (rewrite lookup_insert_ne by discriminate);
              now rewrite lookup_insert_eq | ]).
    now apply elem_of_nil in Hk.
  - intros k f Hf Hbound.
    apply instanceBindings_lookup in Hbound
      as [(Hk & [= <-]) | [(_ & [=]) | (modl & [= <- _] & Hm)]];
      [| now destruct Hm].
    unfold boundNames in Hk.
    repeat (apply elem_of_cons in Hk as [-> | Hk];
            [ repeat (apply elem_of_cons in Hf as [[=] | Hf]);
              now apply elem_of_nil in Hf | ]).
    now apply elem_of_nil in Hk.
Qed.

(** ** index.ts: the shared [decimals] object *)

Lemma networkResolved_mainnet network i d :
  net_id network = 56 \/ net_name network = "mainnet" ->
  snd (networkResolved network i d) = <["USDT" := 18]> (<["USDC" := 18]> d).
Proof.
  unfold networkResolved. intros [H | H]; cbn [snd].
  - rewrite H. reflexivity.
  - rewrite H, orb_true_r. reflexivity.
Qed.

Lemma networkResolved_other network i d :
  net_id network <> 56 -> net_name network <> "mainnet" ->
  snd (networkResolved network i d) = d.
Proof.
  unfold networkResolved. intros Hid Hname; cbn [snd].
  apply Z.eqb_neq in Hid as ->. now apply String.eqb_neq in Hname as ->.
Qed.

(** C8, at the sequence where it fails: an instance is built on a
    network other than mainnet and its network identified, which leaves
    [Ucore.decimals] as it was; a second instance is built on mainnet;
    once the network of the second is identified, [Ucore.decimals.USDC]
    is 18 and so is the [decimals.USDC] the first instance sees,
    whatever they were. *)
Theorem decimals_shared (p1 p2 : value) (o1 o2 : fields) (i1 i2 : UcoreInstance)
    (n1 n2 : Network) (d : gmap string Z) :
  Ucore env p1 o1 = inr i1 ->
  Ucore env p2 o2 = inr i2 ->
  getProviderNetwork env (_provider i1) = inl n1 ->
  getProviderNetwork env (_provider i2) = inl n2 ->
  net_id n1 <> 56 -> net_name n1 <> "mainnet" ->
  net_id n2 = 56 \/ net_name n2 = "mainnet" ->
  let r0 := {| Ucore_decimals := d; instances := [] |} in
  let r1 := run env r0 [Construct p1 o1; Settle 0%nat; Construct p2 o2] in
  let r2 := run env r1 [Settle 1%nat] in
  (Ucore_decimals r1 = d /\ decimalsSeenBy r1 0 "USDC" = d !! "USDC")
  /\ Ucore_decimals r2 !! "USDC" = Some 18
  /\ decimalsSeenBy r2 0 "USDC" = Some 18.
Proof.
  intros H1 H2 Hn1 Hn2 Hid Hname Hmain r0 r1 r2.
  destruct (Ucore_fresh _ _ _ H1) as (_ & Hp1 & _).
  destruct (Ucore_fresh _ _ _ H2) as (_ & Hp2 & _).
  pose proof (networkResolved_other n1 i1 d Hid Hname) as Hd1.
  assert (r1 = {| Ucore_decimals := d;
                  instances := [fst (networkResolved n1 i1 d); i2] |}) as Hr1.
  { unfold r1, r0, run. cbn [fold_left runStep Ucore_decimals instances].
    rewrite H1. cbn [app instances Ucore_decimals lookup list_lookup].
    rewrite Hp1, Hn1.
    destruct (networkResolved n1 i1 d) as [i1' d1] eqn:Hres. cbn [snd] in Hd1. subst d1.
    cbn [Ucore_decimals instances]. rewrite H2. reflexivity. }
  pose proof (networkResolved_mainnet n2 i2 d Hmain) as Hd2.
  assert (r2 = {| Ucore_decimals := <["USDT" := 18]> (<["USDC" := 18]> d);
                  instances := [fst (networkResolved n1 i1 d);
                                fst (networkResolved n2 i2 d)] |}) as Hr2.
  { unfold r2, run. rewrite Hr1.
    cbn [fold_left runStep Ucore_decimals instances lookup list_lookup].
    rewrite Hp2, Hn2.
    destruct (networkResolved n2 i2 d) as [i2' d2] eqn:Hres. cbn [snd] in Hd2. subst d2.
    reflexivity. }
  assert ((<["USDT" := 18]> (<["USDC" := 18]> d) : gmap string Z) !! "USDC" = Some 18)
    as H18 by (rewrite lookup_insert_ne by discriminate; apply lookup_insert_eq).
  rewrite Hr1, Hr2. unfold decimalsSeenBy, instanceDecimals, networkResolved.
  cbn. auto.
Qed.

End Properties.

(** ** [toChecksumAddress] *)

Section ChecksumProperties.

Import Checksum.

Lemma lowerChar_upperChar (c : ascii) : Js.lowerChar (Js.upperChar c) = Js.lowerChar c.
Proof. destruct c as [[] [] [] [] [] [] [] []]; reflexivity. Qed.

Lemma upperChar_upperChar (c : ascii) : Js.upperChar (Js.upperChar c) = Js.upperChar c.
Proof. destruct c as [[] [] [] [] [] [] [] []]; reflexivity. Qed.

Lemma toLowerCase_applyHash (a : string) : forall hash,
  Js.toLowerCase (applyHash hash a) = Js.toLowerCase a.
Proof.
  induction a as [| c r IH]; intros hash; [reflexivity |].
  cbn [applyHash Js.toLowerCase Js.mapChars]. f_equal; [| apply IH].
  destruct (Js.ge8 _); [apply lowerChar_upperChar | reflexivity].
Qed.

Lemma applyHash_applyHash (a : string) : forall hash,
  applyHash hash (applyHash hash a) = applyHash hash a.
Proof.
  induction a as [| c r IH]; intros hash; [reflexivity |].
  cbn [applyHash]. f_equal; [| apply IH].
  destruct (Js.ge8 _) eqn:E; [| reflexivity]. apply upperChar_upperChar.
Qed.

(** In the model, a result of [toChecksumAddress] is returned as it
    is. *)
Lemma toChecksumAddress_fixed (a b : string) :
  toChecksumAddress a = Some b -> toChecksumAddress b = Some b.
Proof.
  unfold toChecksumAddress, expand.
  destruct (_ <? _)%nat eqn:E; [discriminate |]. intros [= <-].
  rewrite toLowerCase_applyHash, E. f_equal. apply applyHash_applyHash.
Qed.

Lemma length_mapChars f (s : string) : String.length (Js.mapChars f s) = String.length s.
Proof. induction s as [| c r IH]; [reflexivity |]. cbn. now rewrite IH. Qed.

Lemma length_substringFrom (s : string) : forall n,
  String.length (Js.substringFrom n s) = (String.length s - n)%nat.
Proof.
  induction s as [| c r IH]; intros [| n]; try reflexivity.
  cbn [Js.substringFrom String.length]. now rewrite IH.
Qed.

(** The only strings [toChecksumAddress] rejects are those of fewer
    than 42 characters. *)
Lemma toChecksumAddress_throws (a : string) :
  toChecksumAddress a = None <-> (String.length a < 42)%nat.
Proof.
  unfold toChecksumAddress, Js.toLowerCase.
  rewrite length_substringFrom, length_mapChars.
  destruct (_ <? _)%nat eqn:E.
  - apply Nat.ltb_lt in E. split; [lia | reflexivity].
  - apply Nat.ltb_ge in E. split; [discriminate | lia].
Qed.

(** C9, at an address where it fails: the all-capitals spelling of the
    EIP-55 example address is returned as it is, while its lower-case
    spelling gets the EIP-55 capitals; the function keeps a capital
    where the digest asks for a small letter. [delegate] accordingly
    forwards two different parameters for the two spellings. *)
Theorem toChecksumAddress_keeps_capitals :
  Js.toLowerCase Demo.upper = Demo.lower
  /\ toChecksumAddress Demo.lower = Some "0x5aAeb6053F3E94C9b9A09f33669435E7Ef1BeAed"
  /\ toChecksumAddress Demo.upper = Some Demo.upper
  /\ toChecksumAddress Demo.upper <> toChecksumAddress (Js.toLowerCase Demo.upper)
  /\ (let env := Demo.env Demo.answers in
      let options := [("_ucoreProvider", VHost "wallet"); ("abi", VHost "abi.UCORE")] in
      log (snd (delegate env (VStr Demo.lower) [] Demo.waiting))
      = [Trx (VStr Demo.ucoreAddress) "delegate"
             [VStr "0x5aAeb6053F3E94C9b9A09f33669435E7Ef1BeAed"] options]
      /\ log (snd (delegate env (VStr Demo.upper) [] Demo.waiting))
         = [Trx (VStr Demo.ucoreAddress) "delegate" [VStr Demo.upper] options]).
Proof.
  assert (toChecksumAddress Demo.lower
          = Some "0x5aAeb6053F3E94C9b9A09f33669435E7Ef1BeAed") as Hl
      by (vm_compute; reflexivity).
  assert (toChecksumAddress Demo.upper = Some Demo.upper) as Hu
      by (vm_compute; reflexivity).
  assert (Js.toLowerCase Demo.upper = Demo.lower) as Hlow by reflexivity.
  split; [exact Hlow |]. split; [exact Hl |]. split; [exact Hu |].
  split; [rewrite Hlow, Hl, Hu; discriminate |].
  split; vm_compute; reflexivity.
Qed.

End ChecksumProperties.

(** ** The theorems at work on the concrete deployment *)

(** [enterMarkets] on two recognized markets, one spelled without its
    ['v'], and on an unknown one. *)
Lemma enterMarkets_forwards_witness :
  let env := Demo.env Demo.answers in
  netId Demo.waiting = (Return tt, Demo.identified)
  /\ tableOf env (this Demo.identified) = Some Demo.table
  /\ enterMarkets env (VArr [VStr "SXP"; VStr "vUSDC"]) [] Demo.waiting
     = (Return (VStr "0xtx"),
        logged (Trx (VStr Demo.controllerAddress) "enterMarkets"
                    [VArr [VStr Demo.vSXP; VStr Demo.vUSDC]]
                    [("_ucoreProvider", VHost "wallet"); ("abi", VHost "abi.Controller")])
               Demo.identified)
  /\ exists e w', enterMarkets env (VArr [VStr "SXP"; VStr "DAI"]) [] Demo.waiting
                  = (Throw e, w')
                  /\ log w' = log Demo.waiting.
Proof.
  intros env.
  destruct (enterMarkets_forwards env [] Demo.waiting) as (_ & Hthrow & Hforward).
  split; [evaluated |]. split; [evaluated |]. split.
  - apply (Hforward ["SXP"; "vUSDC"] Demo.identified Demo.table);
      [evaluated | evaluated |].
    repeat constructor; member.
  - apply (Hthrow ["SXP"; "DAI"]). right. left. vm_compute.
    intros H. repeat (apply elem_of_cons in H as [[=] | H]). now apply elem_of_nil in H.
Defined.

Lemma exitMarket_validation_witness :
  let env := Demo.env Demo.answers in
  netId Demo.waiting = (Return tt, Demo.identified)
  /\ vSymbol "SXP" ∈ vTokens env
  /\ tableOf env (this Demo.identified) = Some Demo.table
  /\ exitMarket env (VStr "SXP") [] Demo.waiting
     = (Return (VStr "0xtx"),
        logged (Trx (VStr Demo.controllerAddress) "exitMarket" [VStr Demo.vSXP]
                    [("_ucoreProvider", VHost "wallet"); ("abi", VHost "abi.Controller")])
               Demo.identified)
  /\ exitMarket env (VNum 3) [] Demo.waiting
     = (Throw (Error ("Ucore [exitMarkets] | " +:+
                      "Argument `market` must be a string of a vToken market name.")),
        Demo.identified).
Proof.
  intros env.
  assert (netId Demo.waiting = (Return tt, Demo.identified)) as Hnet by evaluated.
  assert (vSymbol "SXP" ∈ vTokens env) as Hin by member.
  assert (tableOf env (this Demo.identified) = Some Demo.table) as Ht by evaluated.
  split; [exact Hnet |]. split; [exact Hin |]. split; [exact Ht |]. split.
  - destruct (exitMarket_validation env (VStr "SXP") [] Demo.waiting Demo.identified Hnet)
      as (_ & _ & Hforward).
    apply (Hforward "SXP" Demo.table eq_refl); [discriminate | exact Hin | exact Ht].
  - destruct (exitMarket_validation env (VNum 3) [] Demo.waiting Demo.identified Hnet)
      as (Hbad & _).
    apply Hbad. intros s. discriminate.
Defined.

Lemma instance_bindings_witness :
  let env := Demo.env Demo.answers in
  Ucore env VUndefined [] = inr (Demo.built env)
  /\ bindings (Demo.built env) !! "delegate" = Some (VFun "ucore" "delegate")
  /\ bindings (Demo.built env) !! "mintVAI" = Some VUndefined
  /\ bindings (Demo.built env) !! "mintUAI" <> Some (VFun "ucore" "mintUAI").
Proof.
  intros env.
  assert (Ucore env VUndefined [] = inr (Demo.built env)) as Hbuilt by evaluated.
  destruct (instance_bindings env VUndefined [] (Demo.built env) Hbuilt)
    as (Hbound & Hvai & Hnone).
  split; [exact Hbuilt |]. split; [| split].
  - apply Hbound. member.
  - apply Hvai. member.
  - apply Hnone. member.
Defined.

(** The eight reads on the instance [new Ucore()] returns, before its
    network is identified. *)
Lemma uai_reads_skip_netId_witness :
  let env := Demo.env Demo.answers in
  let w := {| this := Demo.built env; constants_decimals := Demo.decimals0; log := [] |} in
  Ucore env VUndefined [] = inr (Demo.built env)
  /\ getUAIMintRate env [] w = (Throw (TypeError "name"), w)
  /\ getMintableUAI env (VStr Demo.user) [] w = (Throw (TypeError "name"), w)
  /\ exists r w1, enterMarkets env (VArr []) [] w = (settle (respond env r), logged r w1)
                  /\ _network (this w1) = Some Demo.mainnet
                  /\ log w1 = [].
Proof.
  intros env w.
  assert (Ucore env VUndefined [] = inr (Demo.built env)) as Hbuilt by evaluated.
  destruct (uai_reads_skip_netId env VUndefined [] [] (Demo.built env) Demo.mainnet
              Demo.table Demo.decimals0 [] Demo.user Demo.user Hbuilt)
    as ((Hrate & _ & _ & _ & _ & _ & _ & Hmintable) & Henter); try evaluated.
  split; [exact Hbuilt |]. split; [exact Hrate |]. split; [exact Hmintable | exact Henter].
Defined.

Lemma validation_tags_differ_witness :
  let env := Demo.env Demo.answers in
  netId Demo.waiting = (Return tt, Demo.identified)
  /\ isAmount VNull = false
  /\ exists e1 e2,
       exitMarket env (VNum 3) [] Demo.waiting = (Throw e1, Demo.identified)
       /\ tagged "exitMarket" e1 = false /\ tagged "exitMarkets" e1 = true
       /\ repayUAI env VNull [] Demo.waiting = (Throw e2, Demo.identified)
       /\ tagged "repayUAI" e2 = false /\ tagged "mintUAI" e2 = true.
Proof.
  intros env.
  assert (netId Demo.waiting = (Return tt, Demo.identified)) as Hnet by evaluated.
  split; [exact Hnet |]. split; [reflexivity |].
  apply (validation_tags_differ env (VNum 3) VNull [] Demo.waiting Demo.identified Hnet);
    [intros s; discriminate | reflexivity].
Defined.

(** A testnet instance sees 6 decimals for USDC until a mainnet instance
    is built and identified. *)
Lemma decimals_shared_witness :
  let env := Demo.env Demo.answers in
  let r0 := {| Ucore_decimals := Demo.decimals0; instances := [] |} in
  let r1 := run env r0 [Construct (VStr "testnet") []; Settle 0%nat;
                        Construct (VStr "mainnet") []] in
  let r2 := run env r1 [Settle 1%nat] in
  Ucore env (VStr "testnet") [] = inr (Demo.builtOn env "testnet")
  /\ Ucore env (VStr "mainnet") [] = inr (Demo.builtOn env "mainnet")
  /\ decimalsSeenBy r1 0 "USDC" = Some 6
  /\ Ucore_decimals r2 !! "USDC" = Some 18
  /\ decimalsSeenBy r2 0 "USDC" = Some 18.
Proof.
  intros env r0 r1 r2.
  assert (Ucore env (VStr "testnet") [] = inr (Demo.builtOn env "testnet")) as H1
      by evaluated.
  assert (Ucore env (VStr "mainnet") [] = inr (Demo.builtOn env "mainnet")) as H2
      by evaluated.
  assert (getProviderNetwork env (_provider (Demo.builtOn env "testnet"))
          = inl Demo.testnet) as Hn1 by reflexivity.
  assert (getProviderNetwork env (_provider (Demo.builtOn env "mainnet"))
          = inl Demo.mainnet) as Hn2 by reflexivity.
  assert (net_id Demo.testnet <> 56) as Hid by discriminate.
  assert (net_name Demo.testnet <> "mainnet") as Hname by discriminate.
  pose proof (decimals_shared env (VStr "testnet") (VStr "mainnet") [] []
                (Demo.builtOn env "testnet") (Demo.builtOn env "mainnet")
                Demo.testnet Demo.mainnet Demo.decimals0 H1 H2 Hn1 Hn2 Hid Hname
                (or_introl eq_refl))
    as ((_ & Hbefore) & Hglobal & Hafter).
  split; [exact H1 |]. split; [exact H2 |].
  split; [exact (eq_trans Hbefore eq_refl) |]. split; [exact Hglobal | exact Hafter].
Defined.

(** * Further properties of the code *)

(** ** [toChecksumAddress]: what it changes and what it accepts *)

Section ChecksumShape.

Import Checksum.

Lemma length_applyHash (a : string) : forall hash,
  String.length (applyHash hash a) = String.length a.
Proof.
  induction a as [| c r IH]; intros hash; [reflexivity |].
  cbn [applyHash String.length]. now rewrite IH.
Qed.

Lemma upperChar_ascii (c : ascii) :
  (Js.code c <? 128) = true -> (Js.code (Js.upperChar c) <? 128) = true.
Proof. destruct c as [[] [] [] [] [] [] [] []]; intros H; try reflexivity; exact H. Qed.

Lemma isAscii_applyHash (a : string) : forall hash,
  Js.isAscii a = true -> Js.isAscii (applyHash hash a) = true.
Proof.
  induction a as [| c r IH]; intros hash; [reflexivity |].
  cbn [Js.isAscii applyHash]. intros H. apply andb_prop in H as [Hc Hr].
  apply andb_true_intro. split; [| now apply IH].
  destruct (Js.ge8 _); [now apply upperChar_ascii | exact Hc].
Qed.

Lemma toChecksumAddress_ascii (a b : string) :
  Js.isAscii a = true -> toChecksumAddress a = Some b -> Js.isAscii b = true.
Proof.
  unfold toChecksumAddress. destruct (_ <? _)%nat; [discriminate |].
  intros Ha [= <-]. now apply isAscii_applyHash.
Qed.

(** X1. On ASCII strings [toChecksumAddress] is idempotent: whenever it
    accepts such a string, its result is an ASCII string that it accepts
    and returns as it is. *)
Theorem toChecksumAddress_idempotent (a b : string) :
  Js.isAscii a = true ->
  toChecksumAddress a = Some b ->
  Js.isAscii b = true /\ toChecksumAddress b = Some b.
Proof.
  intros Ha H. split; [exact (toChecksumAddress_ascii _ _ Ha H) |].
  exact (toChecksumAddress_fixed _ _ H).
Qed.

Lemma toChecksumAddress_idempotent_witness :
  Js.isAscii Demo.lower = true
  /\ toChecksumAddress Demo.lower = Some Demo.user
  /\ toChecksumAddress Demo.user = Some Demo.user.
Proof.
  assert (toChecksumAddress Demo.lower = Some Demo.user) as H by evaluated.
  split; [reflexivity |]. split; [exact H |].
  exact (proj2 (toChecksumAddress_idempotent Demo.lower Demo.user eq_refl H)).
Defined.

(** X3. On ASCII strings the result of [toChecksumAddress] is its
    argument up to the case of its letters: an ASCII string of the same
    length, and the same string once both are lower-cased. *)
Theorem toChecksumAddress_case_only (a b : string) :
  Js.isAscii a = true ->
  toChecksumAddress a = Some b ->
  Js.toLowerCase b = Js.toLowerCase a
  /\ String.length b = String.length a
  /\ Js.isAscii b = true.
Proof.
  intros Ha H. pose proof (toChecksumAddress_ascii _ _ Ha H) as Hb.
  unfold toChecksumAddress in H. destruct (_ <? _)%nat; [discriminate |].
  injection H as <-.
  split; [apply toLowerCase_applyHash | split; [apply length_applyHash | exact Hb]].
Qed.

Lemma toChecksumAddress_case_only_witness :
  Js.isAscii Demo.lower = true
  /\ toChecksumAddress Demo.lower = Some Demo.user
  /\ Js.toLowerCase Demo.user = Js.toLowerCase Demo.lower
  /\ String.length Demo.user = String.length Demo.lower.
Proof.
  assert (toChecksumAddress Demo.lower = Some Demo.user) as H by evaluated.
  destruct (toChecksumAddress_case_only Demo.lower Demo.user eq_refl H) as (Hl & Hn & _).
  split; [reflexivity |]. split; [exact H |]. split; [exact Hl | exact Hn].
Defined.

(** X2. An ASCII string is accepted by [toChecksumAddress] exactly when
    it has 42 characters or more, and makes it throw exactly when it is
    shorter: neither the prefix nor the digits are checked. *)
Theorem toChecksumAddress_accepts (a : string) :
  Js.isAscii a = true ->
  (is_Some (toChecksumAddress a) <-> (42 <= String.length a)%nat)
  /\ (toChecksumAddress a = None <-> (String.length a < 42)%nat).
Proof.
  intros _. pose proof (toChecksumAddress_throws a) as H. split; [| exact H].
  destruct (toChecksumAddress a) as [b |] eqn:E.
  - split; [intros _ | eauto].
    destruct (Nat.lt_ge_cases (String.length a) 42) as [Hlt | Hge]; [| exact Hge].
    apply H in Hlt. discriminate.
  - split; [intros [b Hb]; discriminate |].
    intros Hge. assert (String.length a < 42)%nat by now apply H. lia.
Qed.

Lemma toChecksumAddress_accepts_witness :
  let prose := "neither a prefix nor forty digits, but long" in
  Js.isAscii prose = true
  /\ (42 <= String.length prose)%nat
  /\ is_Some (toChecksumAddress prose)
  /\ toChecksumAddress "0x5aaeb6" = None.
Proof.
  intros prose.
  assert (42 <= String.length prose)%nat as Hlen by (vm_compute; lia).
  split; [reflexivity |]. split; [exact Hlen |]. split.
  - apply (proj1 (toChecksumAddress_accepts prose eq_refl)). exact Hlen.
  - apply (proj2 (toChecksumAddress_accepts "0x5aaeb6" eq_refl)). vm_compute. lia.
Defined.

Lemma applyHash_capitals (a : string) : forall hash,
  Js.toUpperCase a = a -> applyHash hash a = a.
Proof.
  induction a as [| c r IH]; intros hash; [reflexivity |].
  cbn [Js.toUpperCase Js.mapChars applyHash]. intros [= Hc Hr].
  rewrite Hc. rewrite (IH _ Hr). now destruct (Js.ge8 _).
Qed.

(** X4. An ASCII string of 42 characters or more that has no small
    letter (so with the prefix ['0X'], or any other) is returned as it
    is, whatever its digest: [toChecksumAddress] never lowers a
    capital. *)
Theorem toChecksumAddress_capitals (a : string) :
  Js.isAscii a = true ->
  Js.toUpperCase a = a -> (42 <= String.length a)%nat ->
  toChecksumAddress a = Some a.
Proof.
  intros _ Hup Hlen.
  destruct (toChecksumAddress a) as [b |] eqn:H.
  - unfold toChecksumAddress in H. destruct (_ <? _)%nat; [discriminate |].
    injection H as <-. f_equal. now apply applyHash_capitals.
  - apply toChecksumAddress_throws in H. lia.
Qed.

Lemma toChecksumAddress_capitals_witness :
  let a := "0X5AAEB6053F3E94C9B9A09F33669435E7EF1BEAED" in
  Js.isAscii a = true
  /\ Js.toUpperCase a = a /\ (42 <= String.length a)%nat /\ toChecksumAddress a = Some a.
Proof.
  intros a. split; [reflexivity |]. split; [reflexivity |]. split; [vm_compute; lia |].
  apply toChecksumAddress_capitals; [reflexivity | reflexivity | vm_compute; lia].
Defined.

End ChecksumShape.

(** ** The readiness gate, once passed and when it fails *)

Section Gate.

Variable env : Env.

(** X5. After [netId] has waited for the network, the instance has its
    network, no promise is left on it, no request was issued, and a
    further [netId] returns at once without changing anything. *)
Theorem netId_once (w w1 : world) :
  netId w = (Return tt, w1) ->
  _networkPromise (this w1) = None
  /\ _network (this w1) = resolvedNetwork (this w)
  /\ _provider (this w1) = _provider (this w)
  /\ log w1 = log w
  /\ netId w1 = (Return tt, w1).
Proof.
  unfold netId, resolvedNetwork.
  destruct (_networkPromise (this w)) as [[n | e] |] eqn:Hp.
  - unfold networkResolved. intros [= <-]. cbn. auto.
  - discriminate.
  - intros [= <-]. rewrite Hp. auto.
Qed.

Lemma netId_once_witness :
  netId Demo.waiting = (Return tt, Demo.identified)
  /\ _networkPromise (this Demo.identified) = None
  /\ _network (this Demo.identified) = Some Demo.mainnet
  /\ netId Demo.identified = (Return tt, Demo.identified).
Proof.
  assert (netId Demo.waiting = (Return tt, Demo.identified)) as H by evaluated.
  destruct (netId_once _ _ H) as (Hp & Hn & _ & _ & Hagain).
  split; [exact H |]. split; [exact Hp |]. split; [exact Hn | exact Hagain].
Defined.

Lemma netId_rejected (w : world) (e : error) :
  _networkPromise (this w) = Some (inr e) -> netId w = (Throw e, w).
Proof. unfold netId. now intros ->. Qed.

(** X6. When the identification of the network fails with [e], every
    function behind the gate is rejected with [e] itself, whatever its
    arguments (they are not even validated), no request is issued, and
    the instance stays as it is, so that a later call fails alike. *)
Theorem netId_failure (w : world) (e : error)
    (v1 v2 v3 v4 : value) (options : fields) :
  _networkPromise (this w) = Some (inr e) ->
  enterMarkets env v1 options w = (Throw e, w)
  /\ exitMarket env v1 options w = (Throw e, w)
  /\ claimUcore env options w = (Throw e, w)
  /\ delegate env v1 options w = (Throw e, w)
  /\ delegateBySig env v1 v2 v3 v4 options w = (Throw e, w)
  /\ createDelegateSignature env v1 v2 w = (Throw e, w)
  /\ mintUAI env v1 options w = (Throw e, w)
  /\ repayUAI env v1 options w = (Throw e, w).
Proof.
  intros H. pose proof (netId_rejected w e H) as Hnet.
  unfold enterMarkets, exitMarket, claimUcore, delegate, delegateBySig,
    createDelegateSignature, mintUAI, repayUAI, uaiTransaction.
  repeat split; now rewrite (bind_Throw _ _ _ _ _ Hnet).
Qed.

End Gate.

Lemma netId_failure_witness :
  let e := Error "could not detect network" in
  let w := Demo.start (Demo.instanceOf Demo.wallet (Some (inr e)) None) in
  _networkPromise (this w) = Some (inr e)
  /\ enterMarkets (Demo.env Demo.answers) (VStr "SXP") [] w = (Throw e, w)
  /\ mintUAI (Demo.env Demo.answers) VNull [] w = (Throw e, w).
Proof.
  intros e w.
  destruct (netId_failure (Demo.env Demo.answers) w e (VStr "SXP") VNull VNull VNull []
              eq_refl) as (Henter & _).
  destruct (netId_failure (Demo.env Demo.answers) w e VNull VNull VNull VNull []
              eq_refl) as (_ & _ & _ & _ & _ & _ & Hmint & _).
  split; [reflexivity |]. split; [exact Henter | exact Hmint].
Defined.

(** ** What the functions do to the world *)

Section Discipline.

Variable env : Env.

Lemma quiet_mret {A : Type} (a : A) : quiet (mret a : async A).
Proof. intros w o w' [= _ <-]. reflexivity. Qed.

Lemma quiet_throw {A : Type} (e : error) : quiet (throw e : async A).
Proof. intros w o w' [= _ <-]. reflexivity. Qed.

Lemma quiet_bind {A B : Type} (m : async A) (f : A -> async B) :
  quiet m -> (forall a, quiet (f a)) -> quiet (m ≫= f).
Proof.
  intros Hm Hf w o w'. unfold mbind, async_bind.
  destruct (m w) as [[a | e] w0] eqn:E; apply Hm in E; subst w0.
  - apply Hf.
  - intros [= _ <-]. reflexivity.
Qed.

Lemma quiet_getThis : quiet getThis.
Proof. intros w o w' [= _ <-]. reflexivity. Qed.

Lemma quiet_await (p : settled) : quiet (await p).
Proof. destruct p; [apply quiet_mret | apply quiet_throw]. Qed.

Lemma quiet_addressIn (name key : string) : quiet (addressIn env name key).
Proof.
  unfold addressIn. destruct (address env !! name); [apply quiet_mret | apply quiet_throw].
Qed.

Lemma quiet_addressOf (key : string) : quiet (addressOf env key).
Proof. intros w o w'. apply addressOf_world. Qed.

Lemma quiet_checkAddress (errorPrefix : string) (a : value) :
  quiet (checkAddress errorPrefix a).
Proof. intros w o w'. apply checkAddress_world. Qed.

Lemma quiet_callToString (v : value) : quiet (callToString env v).
Proof. intros w o w'. apply callToString_world. Qed.

Lemma quiet_allocatedOf (v : value) : quiet (allocatedOf v).
Proof. destruct v; first [apply quiet_mret | apply quiet_throw]. Qed.

Lemma quiet_liftEither {A : Type} (r : error + A) : quiet (liftEither r).
Proof. destruct r; [apply quiet_throw | apply quiet_mret]. Qed.

Lemma quiet_liftNetwork (r : Network + error) : quiet (liftNetwork r).
Proof. destruct r; [apply quiet_mret | apply quiet_throw]. Qed.


Lemma quiet_mintableResult (result : value) : quiet (mintableResult env result).
Proof. intros w o w'. apply mintableResult_world. Qed.

Lemma quiet_enterMarkets_loop errorPrefix ms acc :
  quiet (enterMarkets_loop env errorPrefix ms acc).
Proof. intros w o w'. apply enterMarkets_loop_world. Qed.

Lemma readsOnly_quiet {A : Type} (m : async A) : quiet m -> readsOnly m.
Proof. intros Hm w o w' E. apply Hm in E. subst w'. auto. Qed.

Lemma readsOnly_bind {A B : Type} (m : async A) (f : A -> async B) :
  quiet m -> (forall a, readsOnly (f a)) -> readsOnly (m ≫= f).
Proof.
  intros Hm Hf w o w'. unfold mbind, async_bind.
  destruct (m w) as [[a | e] w0] eqn:E; apply Hm in E; subst w0.
  - apply Hf.
  - intros [= _ <-]. auto.
Qed.

Lemma readsOnly_read {B : Type} a m ps os (f : settled -> async B) :
  (forall p, quiet (f p)) -> readsOnly (invoke env (Read a m ps os) ≫= f).
Proof.
  intros Hf w o w'. unfold mbind, async_bind, invoke.
  destruct (respond env _) as [e | p].
  - intros [= _ <-]. cbn. eauto 10.
  - intros E. apply Hf in E. subst w'. cbn. eauto 10.
Qed.

(** X7. The reads never send a transaction, never ask for a signature and
    never touch the instance or the [decimals] object: each of them
    issues at most one request, and it is a read. *)
Theorem reads_only_read (_address _provider : value) (options : fields) :
  readsOnly (getUcoreBalance env _address _provider)
  /\ readsOnly (getUcoreAccrued env _address _provider)
  /\ readsOnly (getMintableUAI env _address options)
  /\ readsOnly (getUAIMintRate env options)
  /\ readsOnly (mintUAIGuardianPaused env options)
  /\ readsOnly (repayUAIGuardianPaused env options)
  /\ readsOnly (mintedUAIOf env _address options)
  /\ readsOnly (mintedUAIs env _address options)
  /\ readsOnly (uaiController env options)
  /\ readsOnly (uaiMintRate env options).
Proof.
  assert (forall method stringify, readsOnly (controllerGetter env method stringify options))
    as Hgetter.
  { intros method stringify. unfold controllerGetter.
    apply readsOnly_bind; [apply quiet_addressOf | intros c].
    apply readsOnly_bind; [apply quiet_getThis | intros i].
    apply readsOnly_read. intros p.
    apply quiet_bind; [apply quiet_await | intros result].
    destruct stringify; [| apply quiet_mret].
    apply quiet_bind; [apply quiet_callToString | intros s; apply quiet_mret]. }
  assert (forall method, readsOnly (mintedReader env method _address options)) as Hminted.
  { intros method. unfold mintedReader.
    apply readsOnly_bind; [apply quiet_checkAddress | intros a].
    apply readsOnly_bind; [apply quiet_addressOf | intros c].
    apply readsOnly_bind; [apply quiet_getThis | intros i].
    apply readsOnly_read. intros p.
    apply quiet_bind; [apply quiet_await | intros result].
    apply quiet_bind; [apply quiet_callToString | intros s; apply quiet_mret]. }
  repeat match goal with |- _ /\ _ => split end; try apply Hgetter; try apply Hminted.
  - unfold getUcoreBalance.
    apply readsOnly_bind; [apply quiet_liftEither | intros provider].
    apply readsOnly_bind; [apply quiet_liftNetwork | intros net].
    apply readsOnly_bind; [apply quiet_checkAddress | intros a].
    apply readsOnly_bind; [apply quiet_addressIn | intros u].
    apply readsOnly_read. intros p.
    apply quiet_bind; [apply quiet_await | intros result].
    apply quiet_bind; [apply quiet_callToString | intros s; apply quiet_mret].
  - unfold getUcoreAccrued.
    apply readsOnly_bind; [apply quiet_liftEither | intros provider].
    apply readsOnly_bind; [apply quiet_liftNetwork | intros net].
    apply readsOnly_bind; [apply quiet_checkAddress | intros a].
    apply readsOnly_bind; [apply quiet_addressIn | intros l].
    apply readsOnly_bind; [apply quiet_addressIn | intros u].
    apply readsOnly_bind; [apply quiet_addressIn | intros c].
    apply readsOnly_read. intros p.
    apply quiet_bind; [apply quiet_await | intros result].
    apply quiet_bind; [apply quiet_allocatedOf | intros allocated].
    apply quiet_bind; [apply quiet_callToString | intros s; apply quiet_mret].
  - unfold getMintableUAI.
    apply readsOnly_bind; [apply quiet_checkAddress | intros a].
    apply readsOnly_bind; [apply quiet_addressOf | intros c].
    apply readsOnly_bind; [apply quiet_getThis | intros i].
    apply readsOnly_read. intros p.
    apply quiet_bind; [apply quiet_await | intros result].
    apply (quiet_mintableResult result).
Qed.

(** *** Rejections of the library in the other functions *)

Lemma surfaces_quiet (m : async value) : quiet m -> surfaces env m.
Proof.
  intros Hm w o w' r e E Hlog _. apply Hm in E. subst w'.
  now apply log_grows_not in Hlog.
Qed.

Lemma surfaces_bind {A : Type} (m : async A) (f : A -> async value) :
  quiet m -> (forall a, surfaces env (f a)) -> surfaces env (m ≫= f).
Proof.
  intros Hm Hf w o w' r e. unfold mbind, async_bind.
  destruct (m w) as [[a | e0] w0] eqn:E; apply Hm in E; subst w0.
  - apply Hf.
  - intros [= _ <-] Hlog _. now apply log_grows_not in Hlog.
Qed.

Lemma surfaces_gate (f : async value) :
  surfaces env f -> surfaces env (netId ≫= fun _ => f).
Proof.
  intros Hf w o w' r e. unfold mbind, async_bind.
  destruct (netId w) as [[[] | e0] w0] eqn:E; apply netId_log in E.
  - intros Hrun Hlog. rewrite <- E in Hlog. now apply (Hf w0 o w' r e).
  - intros [= _ <-] Hlog _. rewrite E in Hlog. now apply log_grows_not in Hlog.
Qed.

Lemma surfaces_request (q : request) (f : value -> async value) :
  (forall v, quiet (f v)) ->
  surfaces env (invoke env q ≫= fun p => await p ≫= f).
Proof.
  intros Hf w o w' r e. unfold mbind, async_bind, invoke.
  destruct (respond env q) as [e0 | [v | e0]] eqn:Hq; cbn.
  - intros [= <- <-] Hlog Hr. cbn in Hlog. apply log_last in Hlog. congruence.
  - intros E Hlog Hr. apply Hf in E. subst w'.
    cbn in Hlog. apply log_last in Hlog. congruence.
  - intros [= <- <-] Hlog Hr. cbn in Hlog. apply log_last in Hlog. congruence.
Qed.

Lemma surfaces_transaction (q : request) : surfaces env (invoke env q ≫= await).
Proof.
  intros w o w' r e. rewrite invoke_await. intros [= <- <-] Hlog Hr.
  cbn in Hlog. apply log_last in Hlog. subst q. now rewrite Hr.
Qed.

(** X8. Outside [claimUcore], [mintUAI] and [repayUAI] there is no [try]:
    whenever [enterMarkets], [exitMarket], [delegate], [delegateBySig] or
    one of the reads has issued its request and the library rejects the
    promise with [e], the function's own promise is rejected with [e]. *)
Theorem rejections_surface_elsewhere (v1 v2 v3 v4 : value) (options : fields) :
  surfaces env (enterMarkets env v1 options)
  /\ surfaces env (exitMarket env v1 options)
  /\ surfaces env (delegate env v1 options)
  /\ surfaces env (delegateBySig env v1 v2 v3 v4 options)
  /\ surfaces env (getUcoreBalance env v1 v2)
  /\ surfaces env (getUcoreAccrued env v1 v2)
  /\ surfaces env (mintedUAIOf env v1 options)
  /\ surfaces env (getUAIMintRate env options)
  /\ surfaces env (uaiController env options).
Proof.
  assert (forall method stringify, surfaces env (controllerGetter env method stringify options))
    as Hgetter.
  { intros method stringify. unfold controllerGetter.
    apply surfaces_bind; [apply quiet_addressOf | intros c].
    apply surfaces_bind; [apply quiet_getThis | intros i].
    apply surfaces_request. intros result.
    destruct stringify; [| apply quiet_mret].
    apply quiet_bind; [apply quiet_callToString | intros s; apply quiet_mret]. }
  repeat match goal with |- _ /\ _ => split end; try apply Hgetter.
  - unfold enterMarkets. apply surfaces_gate.
    destruct (match match v1 with VUndefined => VArr [] | _ => v1 end with
              | VStr _ => _ | _ => _ end);
      try (apply surfaces_quiet, quiet_throw).
    apply surfaces_bind; [apply quiet_enterMarkets_loop | intros addresses].
    apply surfaces_bind; [apply quiet_addressOf | intros c].
    apply surfaces_bind; [apply quiet_getThis | intros i].
    apply surfaces_transaction.
  - unfold exitMarket. apply surfaces_gate.
    destruct v1 as [| | | | | [| c0 s0] | | | | | |];
      try (apply surfaces_quiet, quiet_throw).
    destruct (includes _ _); [| apply surfaces_quiet, quiet_throw].
    apply surfaces_bind; [apply quiet_addressOf | intros a].
    apply surfaces_bind; [apply quiet_addressOf | intros c].
    apply surfaces_bind; [apply quiet_getThis | intros i].
    apply surfaces_transaction.
  - unfold delegate. apply surfaces_gate.
    apply surfaces_bind; [apply quiet_checkAddress | intros a].
    apply surfaces_bind; [apply quiet_addressOf | intros c].
    apply surfaces_bind; [apply quiet_getThis | intros i].
    apply surfaces_transaction.
  - unfold delegateBySig. apply surfaces_gate.
    apply surfaces_bind; [apply quiet_checkAddress | intros a].
    destruct (negb _); [apply surfaces_quiet, quiet_throw |].
    destruct (negb _); [apply surfaces_quiet, quiet_throw |].
    destruct (_ || _); [apply surfaces_quiet, quiet_throw |].
    apply surfaces_bind; [apply quiet_addressOf | intros c].
    apply surfaces_bind; [apply quiet_getThis | intros i].
    apply surfaces_transaction.
  - unfold getUcoreBalance.
    apply surfaces_bind; [apply quiet_liftEither | intros provider].
    apply surfaces_bind; [apply quiet_liftNetwork | intros net].
    apply surfaces_bind; [apply quiet_checkAddress | intros a].
    apply surfaces_bind; [apply quiet_addressIn | intros u].
    apply surfaces_request. intros result.
    apply quiet_bind; [apply quiet_callToString | intros s; apply quiet_mret].
  - unfold getUcoreAccrued.
    apply surfaces_bind; [apply quiet_liftEither | intros provider].
    apply surfaces_bind; [apply quiet_liftNetwork | intros net].
    apply surfaces_bind; [apply quiet_checkAddress | intros a].
    apply surfaces_bind; [apply quiet_addressIn | intros l].
    apply surfaces_bind; [apply quiet_addressIn | intros u].
    apply surfaces_bind; [apply quiet_addressIn | intros c].
    apply surfaces_request. intros result.
    apply quiet_bind; [apply quiet_allocatedOf | intros allocated].
    apply quiet_bind; [apply quiet_callToString | intros s; apply quiet_mret].
  - unfold mintedUAIOf, mintedReader.
    apply surfaces_bind; [apply quiet_checkAddress | intros a].
    apply surfaces_bind; [apply quiet_addressOf | intros c].
    apply surfaces_bind; [apply quiet_getThis | intros i].
    apply surfaces_request. intros result.
    apply quiet_bind; [apply quiet_callToString | intros s; apply quiet_mret].
Qed.

End Discipline.

(** ** The functions of ucore.ts, case by case *)

Section Ucore.

Variable env : Env.

Lemma checkAddress_short errorPrefix s w :
  (String.length s < 42)%nat ->
  checkAddress errorPrefix (VStr s) w
  = (Throw (Error (errorPrefix +:+
                   "Argument `_address` must be a valid Ethereum address.")), w).
Proof.
  intros H. apply toChecksumAddress_throws in H. unfold checkAddress. now rewrite H.
Qed.

Lemma checkAddress_type errorPrefix v w :
  typeof v <> "string" ->
  checkAddress errorPrefix v w
  = (Throw (Error (errorPrefix +:+ "Argument `_address` must be a string.")), w).
Proof. intros H. destruct v; try reflexivity. now destruct H. Qed.

(** X9. [delegate], once the network is identified: an argument that is not
    a string and an ASCII string of fewer than 42 characters are refused
    with the function's two errors and no request; any longer ASCII
    string is accepted, and on a network that has an address table the
    one transaction [delegate] goes to the table's UCORE address with
    the re-capitalized string as only parameter. *)
Theorem delegate_forwards (_address : value) (options : fields) (w w1 : world) :
  netId w = (Return tt, w1) ->
  (typeof _address <> "string" ->
     delegate env _address options w
     = (Throw (Error "Ucore [delegate] | Argument `_address` must be a string."), w1))
  /\ (forall s, _address = VStr s -> Js.isAscii s = true ->
        (String.length s < 42)%nat ->
        delegate env _address options w
        = (Throw (Error ("Ucore [delegate] | " +:+
                         "Argument `_address` must be a valid Ethereum address.")), w1))
  /\ (forall s t, _address = VStr s -> Js.isAscii s = true ->
        (42 <= String.length s)%nat ->
        tableOf env (this w1) = Some t ->
        exists a, Checksum.toChecksumAddress s = Some a
          /\ Js.toLowerCase a = Js.toLowerCase s
          /\ let r := Trx (entry t "UCORE") "delegate" [VStr a]
                          (withProvider env options (_provider (this w1)) "UCORE") in
             delegate env _address options w = (settle (respond env r), logged r w1)).
Proof.
  intros Hnet. unfold delegate. rewrite (bind_Return _ _ _ _ _ Hnet).
  split; [| split].
  - intros Hty. now rewrite (bind_Throw _ _ _ _ _ (checkAddress_type _ _ w1 Hty)).
  - intros s -> _ Hlen.
    now rewrite (bind_Throw _ _ _ _ _ (checkAddress_short _ _ w1 Hlen)).
  - intros s t -> _ Hlen Ht.
    destruct (Checksum.toChecksumAddress s) as [a |] eqn:Hs;
      [| apply toChecksumAddress_throws in Hs; lia].
    exists a. split; [reflexivity |].
    split.
    { pose proof Hs as Hs'. unfold Checksum.toChecksumAddress in Hs'.
      destruct (_ <? _)%nat; [discriminate |]. injection Hs' as <-.
      apply toLowerCase_applyHash. }
    cbv zeta.
    rewrite (bind_Return _ _ _ _ _ (checkAddress_ok _ _ _ _ Hs)).
    rewrite (bind_Return _ _ _ _ _ (addressOf_table env _ _ _ Ht)).
    rewrite bind_getThis. apply invoke_await.
Qed.



Lemma tried_run (prepare : async request) (errorPrefix : string) (w1 : world)
    (q : request) :
  prepare w1 = (Return q, w1) ->
  (p ← tryCatch (q ← prepare; invoke env q) (returnError errorPrefix); await p) w1
  = (settleTried errorPrefix (respond env q), logged q w1).
Proof.
  intros Hp. unfold tryCatch, returnError, invoke, mbind, async_bind, mret, async_ret.
  rewrite Hp. unfold settleTried.
  destruct (respond env q) as [e | [v | e]]; reflexivity.
Qed.

Lemma tried_thrown (prepare : async request) (errorPrefix : string) (w1 : world)
    (e : error) :
  prepare w1 = (Throw e, w1) ->
  (p ← tryCatch (q ← prepare; invoke env q) (returnError errorPrefix); await p) w1
  = (Return (VErr (prefixed errorPrefix e)), w1).
Proof.
  intros Hp. unfold tryCatch, returnError, mbind, async_bind, mret, async_ret.
  now rewrite Hp.
Qed.

Lemma claimUcore_tried options w w1 :
  netId w = (Return tt, w1) ->
  claimUcore env options w
  = (p ← tryCatch
           (q ← (i ← getThis;
                 userAddress ← userAddressOf (_provider i);
                 controllerAddress ← addressOf env "Controller";
                 mret (Trx controllerAddress "claimUcore(address)" [userAddress]
                           (withProvider env options (_provider i) "Controller")));
            invoke env q)
           (returnError "Ucore [claimUcore] | ");
     await p) w1.
Proof.
  intros Hnet. unfold claimUcore. rewrite (bind_Return _ _ _ _ _ Hnet).
  unfold tryCatch, mbind, async_bind, getThis, mret, async_ret.
  destruct (userAddressOf _ w1) as [[u | e1] w3]; [| reflexivity].
  destruct (addressOf env "Controller" w3) as [[c | e1] w4]; reflexivity.
Qed.

Lemma uaiTransaction_tried method checkPrefix catchPrefix amount big options w w1 :
  netId w = (Return tt, w1) ->
  isAmount amount = true ->
  amountToBigNumber env (truthy (getField "mantissa" options)) amount = inr big ->
  uaiTransaction env method checkPrefix catchPrefix amount options w
  = (p ← tryCatch
           (q ← (controllerAddress ← addressOf env "Controller";
                 i ← getThis;
                 mret (Trx controllerAddress method [big]
                           (withProvider env options (_provider i) "Controller")));
            invoke env q)
           (returnError catchPrefix);
     await p) w1.
Proof.
  intros Hnet Hamount Hbig. unfold uaiTransaction.
  rewrite (bind_Return _ _ _ _ _ Hnet), Hamount. cbn [negb].
  rewrite Hbig. cbn [liftEither]. rewrite bind_mret.
  unfold tryCatch, mbind, async_bind, getThis, mret, async_ret.
  destruct (addressOf env "Controller" w1) as [[c | e1] w3]; reflexivity.
Qed.

(** X12. [claimUcore] on an identified network that has an address table:
    the user's address is the provider's [address] when that is truthy,
    otherwise what its [getAddress] answers; the one transaction
    [claimUcore(address)] goes to the table's Controller with that
    address. Its promise is the library's, except that an error the
    library throws while being called is returned, prefixed, as a
    value. *)
Theorem claimUcore_sends (options : fields) (w w1 : world)
    (t : gmap string string) (user : value) :
  netId w = (Return tt, w1) ->
  tableOf env (this w1) = Some t ->
  let p := _provider (this w1) in
  (truthy (prov_address p) = true /\ user = prov_address p)
  \/ (truthy (prov_address p) = false
      /\ prov_getAddress p = Some (Fulfilled user))
  \/ (truthy (prov_address p) = false
      /\ prov_getAddress p = None /\ user = prov_address p) ->
  let r := Trx (entry t "Controller") "claimUcore(address)" [user]
               (withProvider env options p "Controller") in
  claimUcore env options w
  = (settleTried "Ucore [claimUcore] | " (respond env r), logged r w1).
Proof.
  intros Hnet Ht p Huser r.
  rewrite (claimUcore_tried _ _ _ Hnet). apply tried_run.
  rewrite bind_getThis.
  assert (userAddressOf (_provider (this w1)) w1 = (Return user, w1)) as Hu.
  { unfold userAddressOf. fold p.
    destruct Huser as [[-> ->] | [[-> ->] | (-> & -> & ->)]]; reflexivity. }
  rewrite (bind_Return _ _ _ _ _ Hu).
  now rewrite (bind_Return _ _ _ _ _ (addressOf_table env _ _ _ Ht)).
Qed.

(** X13. [mintUAI] and [repayUAI] on an identified network that has an
    address table, for an amount of an accepted type: when the
    conversion to a [BigNumber] fails, the promise is rejected with the
    library's error, unprefixed, and nothing is sent (the conversion is
    outside the [try]); otherwise the one transaction goes to the
    table's Controller with the converted amount, and an error the
    library throws while being called is returned, prefixed, as a
    value. *)
Theorem uai_transactions (amount : value) (options : fields) (w w1 : world)
    (t : gmap string string) :
  netId w = (Return tt, w1) ->
  isAmount amount = true ->
  tableOf env (this w1) = Some t ->
  let converted := amountToBigNumber env (truthy (getField "mantissa" options)) amount in
  let r method big := Trx (entry t "Controller") method [big]
                          (withProvider env options (_provider (this w1)) "Controller") in
  (forall e, converted = inl e ->
     mintUAI env amount options w = (Throw e, w1)
     /\ repayUAI env amount options w = (Throw e, w1))
  /\ (forall big, converted = inr big ->
        mintUAI env amount options w
        = (settleTried "Ucore [mintUAI] | " (respond env (r "mintUAI" big)),
           logged (r "mintUAI" big) w1)
        /\ repayUAI env amount options w
           = (settleTried "Ucore [repayUAI] | " (respond env (r "repayUAI" big)),
              logged (r "repayUAI" big) w1)).
Proof.
  intros Hnet Hamount Ht converted r. split.
  - intros e He. unfold mintUAI, repayUAI, uaiTransaction.
    rewrite !(bind_Return _ _ _ _ _ Hnet), Hamount. cbn [negb].
    fold converted. rewrite He. split; reflexivity.
  - intros big Hbig. unfold mintUAI, repayUAI.
    rewrite !(uaiTransaction_tried _ _ _ _ _ _ _ _ Hnet Hamount Hbig).
    split; apply tried_run;
      now rewrite (bind_Return _ _ _ _ _ (addressOf_table env _ _ _ Ht)).
Qed.

(** X14. On an identified network for which constants.ts has no address
    table, the functions with a [try] do not fail: [claimUcore],
    [mintUAI] and [repayUAI] fulfil their promise with the [TypeError]
    of the lookup, prefixed, as a value, and send nothing; [enterMarkets]
    and [delegate], which have no [try], are rejected with it. *)
Theorem unknown_network_returned (amount big : value) (options : fields)
    (w w1 : world) (n : Network) (user : value) (s a : string) :
  netId w = (Return tt, w1) ->
  _network (this w1) = Some n ->
  address env !! net_name n = None ->
  userAddressOf (_provider (this w1)) w1 = (Return user, w1) ->
  isAmount amount = true ->
  amountToBigNumber env (truthy (getField "mantissa" options)) amount = inr big ->
  Checksum.toChecksumAddress s = Some a ->
  let returned errorPrefix :=
    (Return (VErr (Err "TypeError"
                       (errorPrefix +:+ err_message (TypeError "Controller")))), w1) in
  claimUcore env options w = returned "Ucore [claimUcore] | "
  /\ mintUAI env amount options w = returned "Ucore [mintUAI] | "
  /\ repayUAI env amount options w = returned "Ucore [repayUAI] | "
  /\ enterMarkets env (VArr []) options w = (Throw (TypeError "Controller"), w1)
  /\ delegate env (VStr s) options w = (Throw (TypeError "UCORE"), w1).
Proof.
  intros Hnet Hn Hnone Hu Hamount Hbig Hs returned.
  assert (forall key, addressOf env key w1 = (Throw (TypeError key), w1)) as Haddr.
  { intros key. unfold addressOf, networkName, addressIn, getThis, mbind, async_bind.
    rewrite Hn. cbn. now rewrite Hnone. }
  subst returned. cbv beta.
  split; [| split; [| split; [| split]]].
  - rewrite (claimUcore_tried _ _ _ Hnet).
    rewrite (tried_thrown _ _ _ (TypeError "Controller")); [reflexivity |].
    rewrite bind_getThis, (bind_Return _ _ _ _ _ Hu).
    now rewrite (bind_Throw _ _ _ _ _ (Haddr "Controller")).
  - unfold mintUAI. rewrite (uaiTransaction_tried _ _ _ _ _ _ _ _ Hnet Hamount Hbig).
    rewrite (tried_thrown _ _ _ (TypeError "Controller")); [reflexivity |].
    now rewrite (bind_Throw _ _ _ _ _ (Haddr "Controller")).
  - unfold repayUAI. rewrite (uaiTransaction_tried _ _ _ _ _ _ _ _ Hnet Hamount Hbig).
    rewrite (tried_thrown _ _ _ (TypeError "Controller")); [reflexivity |].
    now rewrite (bind_Throw _ _ _ _ _ (Haddr "Controller")).
  - unfold enterMarkets. rewrite (bind_Return _ _ _ _ _ Hnet).
    cbn [enterMarkets_loop]. rewrite bind_mret.
    now rewrite (bind_Throw _ _ _ _ _ (Haddr "Controller")).
  - unfold delegate. rewrite (bind_Return _ _ _ _ _ Hnet).
    rewrite (bind_Return _ _ _ _ _ (checkAddress_ok _ _ _ _ Hs)).
    now rewrite (bind_Throw _ _ _ _ _ (Haddr "UCORE")).
Qed.

(** X15. [createDelegateSignature] asks for no signature unless the nonce was
    read: when the user's address cannot be obtained it is rejected
    before any request, and when the read of [nonces] fails it is
    rejected with the library's error after that one request. *)
Theorem createDelegateSignature_needs_nonce (delegatee expiry : value)
    (w w1 : world) (t : gmap string string) :
  netId w = (Return tt, w1) ->
  tableOf env (this w1) = Some t ->
  (forall e, userAddressOf (_provider (this w1)) w1 = (Throw e, w1) ->
     createDelegateSignature env delegatee expiry w = (Throw e, w1))
  /\ (forall user e,
        userAddressOf (_provider (this w1)) w1 = (Return user, w1) ->
        let read := noncesRead (entry t "UCORE") user (_originalProvider (this w1)) in
        settle (respond env read) = Throw e ->
        createDelegateSignature env delegatee expiry w = (Throw e, logged read w1)).
Proof.
  intros Hnet Ht.
  assert (exists n, _network (this w1) = Some n) as [n Hn].
  { unfold tableOf in Ht. destruct (_network (this w1)) as [n |]; [eauto | discriminate]. }
  unfold createDelegateSignature. rewrite (bind_Return _ _ _ _ _ Hnet), bind_getThis.
  rewrite (bind_Return _ _ _ _ _ (addressOf_table env _ _ _ Ht)).
  rewrite (bind_Return _ _ _ _ _ (networkId_network _ _ Hn)).
  split.
  - intros e He. now rewrite (bind_Throw _ _ _ _ _ He).
  - intros user e Hu. cbv zeta. intros Hfail. rewrite (bind_Return _ _ _ _ _ Hu).
    unfold mbind at 1, async_bind at 1, invoke.
    unfold settle in Hfail.
    destruct (respond env _) as [e0 | [v | e0]]; try discriminate;
      injection Hfail as ->; reflexivity.
Qed.

End Ucore.

(** ** Options, bindings and the [decimals] object *)

Section Objects.

Variable env : Env.

Lemma getField_setField_eq (k : string) (v : value) (fs : fields) :
  getField k (setField k v fs) = v.
Proof.
  induction fs as [| [k' v'] fs IH]; cbn.
  - now rewrite String.eqb_refl.
  - destruct (String.eqb k k') eqn:E; cbn; rewrite ?String.eqb_refl, ?E; auto.
Qed.

Lemma getField_setField_ne (k k' : string) (v : value) (fs : fields) :
  k <> k' -> getField k' (setField k v fs) = getField k' fs.
Proof.
  intros Hne. assert (String.eqb k' k = false) as Hk by (apply String.eqb_neq; congruence).
  induction fs as [| [k0 v0] fs IH]; cbn.
  - now rewrite Hk.
  - destruct (String.eqb k k0) eqn:E; cbn.
    + apply String.eqb_eq in E. subst k0. now rewrite Hk.
    + destruct (String.eqb k' k0); auto.
Qed.

Lemma hasField_cons (k k0 : string) (v0 : value) (fs : fields) :
  hasField k ((k0, v0) :: fs) = String.eqb k k0 || hasField k fs.
Proof. reflexivity. Qed.

Lemma hasField_false (k : string) (fs : fields) :
  hasField k fs = false -> getField k fs = VUndefined.
Proof.
  induction fs as [| [k0 v0] fs IH]; [reflexivity |].
  rewrite hasField_cons. intros H. apply orb_false_elim in H as [H1 H2].
  cbn. rewrite H1. auto.
Qed.

Lemma hasField_elem (k : string) (fs : fields) :
  hasField k fs = true -> k ∈ (fst <$> fs).
Proof.
  induction fs as [| [k0 v0] fs IH]; [discriminate |].
  rewrite hasField_cons. intros H. apply orb_prop in H as [H | H].
  - apply String.eqb_eq in H. subst. left.
  - right. auto.
Qed.

(** Reading a property of [{ ...a, ...b }]: [b]'s when it has the
    property, [a]'s otherwise. *)
Lemma getField_spread (b : fields) : forall (a : fields) (k : string),
  NoDup (fst <$> b) ->
  getField k (spread a b) = if hasField k b then getField k b else getField k a.
Proof.
  unfold spread.
  induction b as [| [k0 v0] b IH]; intros a k Hnd; [reflexivity |].
  apply NoDup_cons in Hnd as [Hfresh Hnd].
  cbn [fold_left fst snd]. rewrite (IH _ _ Hnd), hasField_cons.
  destruct (hasField k b) eqn:Hb.
  - apply hasField_elem in Hb.
    assert (String.eqb k k0 = false) as ->
        by (apply String.eqb_neq; intros ->; contradiction).
    rewrite orb_true_r. cbn. assert (String.eqb k k0 = false) as ->
        by (apply String.eqb_neq; intros ->; contradiction). reflexivity.
  - rewrite orb_false_r. destruct (String.eqb k k0) eqn:E.
    + apply String.eqb_eq in E. subst k0. cbn. rewrite String.eqb_refl.
      apply getField_setField_eq.
    + apply getField_setField_ne. apply String.eqb_neq in E. congruence.
Qed.

(** X16. The options a caller passes cannot replace the provider or the ABI
    in the functions of ucore.ts, which write the two after the caller's
    options; in [enterMarkets] and [exitMarket], which write them first,
    a caller's [_ucoreProvider] or [abi] wins. Every other option of the
    caller is passed through by both. *)
Theorem options_precedence (options : fields) (provider : Provider)
    (i : UcoreInstance) (name k : string) :
  NoDup (fst <$> options) ->
  getField "_ucoreProvider" (withProvider env options provider name) = prov_self provider
  /\ getField "abi" (withProvider env options provider name) = abi env name
  /\ (k <> "_ucoreProvider" -> k <> "abi" ->
      getField k (withProvider env options provider name) = getField k options
      /\ getField k (controllerOptions env i options) = getField k options)
  /\ getField "_ucoreProvider" (controllerOptions env i options)
     = (if hasField "_ucoreProvider" options then getField "_ucoreProvider" options
        else prov_self (_provider i))
  /\ getField "abi" (controllerOptions env i options)
     = (if hasField "abi" options then getField "abi" options
        else abi env "Controller").
Proof.
  intros Hnd. unfold withProvider, controllerOptions.
  split; [| split; [| split; [| split]]].
  - unfold spread. cbn [fold_left fst snd].
    rewrite getField_setField_ne by discriminate. apply getField_setField_eq.
  - unfold spread. cbn [fold_left fst snd]. apply getField_setField_eq.
  - intros Hp Ha. split.
    + unfold spread. cbn [fold_left fst snd].
      rewrite !getField_setField_ne by congruence. reflexivity.
    + rewrite (getField_spread _ _ _ Hnd).
      destruct (hasField k options) eqn:Hk; [reflexivity |].
      rewrite (hasField_false _ _ Hk). cbn.
      apply String.eqb_neq in Hp, Ha. now rewrite Hp, Ha.
  - now rewrite (getField_spread _ _ _ Hnd).
  - now rewrite (getField_spread _ _ _ Hnd).
Qed.

(** *** The instance's properties *)

Lemma exports_member (modl : string) (names : list string) (k : string) :
  k ∈ names -> exports modl names !! k = Some (VFun modl k).
Proof.
  intros Hk. destruct (exports modl names !! k) as [v |] eqn:E.
  - now rewrite (exports_lookup _ _ _ _ E).
  - unfold exports in E. apply not_elem_of_list_to_map_2 in E.
    destruct E. rewrite <- list_fmap_compose. apply list_elem_of_fmap.
    exists k. split; [reflexivity | assumption].
Qed.

Lemma exports_absent (modl : string) (names : list string) (k : string) :
  k ∉ names -> exports modl names !! k = None.
Proof.
  intros Hk. unfold exports. apply not_elem_of_list_to_map_1.
  rewrite <- list_fmap_compose. intros H. apply list_elem_of_fmap in H as (n & -> & Hn).
  contradiction.
Qed.

Lemma exports_decide (modl : string) (names : list string) (k : string) :
  exports modl names !! k
  = if bool_decide (k ∈ names) then Some (VFun modl k) else None.
Proof.
  case_bool_decide; [now apply exports_member | now apply exports_absent].
Qed.

(** X17. Every function-valued property of an instance holds, under a name,
    the function a module exports under that very name (or [undefined]):
    the constructor renames nothing. For a name outside the fourteen it
    binds explicitly, the function is that of the last module spread
    that exports the name: gov, then priceFeed, then vToken, then the
    controller, whose [enterMarkets] and [exitMarket] are therefore
    replaced when a later module exports these names. *)
Theorem bindings_by_name (provider : value) (options : fields) (i : UcoreInstance)
    (k : string) :
  Ucore env provider options = inr i ->
  (forall v, bindings i !! k = Some v -> v = VUndefined \/ exists modl, v = VFun modl k)
  /\ (k ∉ boundNames -> k ∉ vaiNames ->
      bindings i !! k
      = if bool_decide (k ∈ gov_exports env) then Some (VFun "gov" k)
        else if bool_decide (k ∈ priceFeed_exports env) then Some (VFun "priceFeed" k)
        else if bool_decide (k ∈ vToken_exports env) then Some (VFun "vToken" k)
        else if bool_decide (k ∈ ["enterMarkets"; "exitMarket"])
             then Some (VFun "controller" k)
        else None).
Proof.
  intros Hi. destruct (Ucore_fresh env _ _ _ Hi) as (_ & _ & ->).
  split.
  - intros v Hv.
    apply instanceBindings_lookup in Hv as [(_ & ->) | [(_ & ->) | (m & -> & _)]]; eauto.
  - intros Hb Hv. unfold instanceBindings. cbn [fold_left]. unfold bindComp.
    repeat (rewrite lookup_insert_ne;
            [| intros <-; first [apply Hb; member | apply Hv; member]]).
    rewrite !lookup_union. unfold gov, priceFeed, vToken, controller.
    rewrite !exports_decide.
    repeat case_bool_decide; reflexivity.
Qed.

(** *** Runs of the module *)

Lemma runStep_decimals (r : runtime) (s : step) (k : string) :
  (k <> "USDC" -> k <> "USDT" ->
   Ucore_decimals (runStep env r s) !! k = Ucore_decimals r !! k)
  /\ (Ucore_decimals (runStep env r s) !! k = Ucore_decimals r !! k
      \/ Ucore_decimals (runStep env r s) !! k = Some 18).
Proof.
  destruct s as [p o | n]; cbn [runStep].
  - destruct (Ucore env p o); auto.
  - destruct (instances r !! n) as [i |]; [| auto].
    destruct (_networkPromise i) as [[network | e] |]; [| auto | auto].
    unfold networkResolved.
    destruct (_ || _); cbn [Ucore_decimals]; [| auto].
    split.
    + intros Hc Ht. now rewrite !lookup_insert_ne by congruence.
    + destruct (decide (k = "USDT")) as [-> | Ht];
        [right; apply lookup_insert_eq |].
      rewrite lookup_insert_ne by congruence.
      destruct (decide (k = "USDC")) as [-> | Hc];
        [right; apply lookup_insert_eq |].
      left. now rewrite lookup_insert_ne by congruence.
Qed.

(** X18. Whatever instances are built and identified, in any order, the
    shared [decimals] object changes at no key other than [USDC] and
    [USDT], and at these two it either keeps its value or becomes 18;
    so an entry that is 18 stays 18. *)
Theorem decimals_over_runs (steps : list step) (r : runtime) (k : string) :
  (k <> "USDC" -> k <> "USDT" ->
   Ucore_decimals (run env r steps) !! k = Ucore_decimals r !! k)
  /\ (Ucore_decimals (run env r steps) !! k = Ucore_decimals r !! k
      \/ Ucore_decimals (run env r steps) !! k = Some 18)
  /\ (Ucore_decimals r !! k = Some 18 ->
      Ucore_decimals (run env r steps) !! k = Some 18).
Proof.
  revert r. unfold run.
  induction steps as [| s steps IH]; intros r; cbn [fold_left]; [auto |].
  destruct (IH (runStep env r s)) as (Hother & Hor & Hstay).
  destruct (runStep_decimals r s k) as (Hother1 & Hor1).
  split; [| split].
  - intros Hc Ht. now rewrite Hother, Hother1.
  - destruct Hor as [-> | ->]; auto.
  - intros H18. destruct Hor1 as [E | E]; [rewrite H18 in E |]; auto.
Qed.

Lemma networkResolved_identified network i d :
  isIdentified (fst (networkResolved network i d)).
Proof. unfold networkResolved, isIdentified. cbn. eauto. Qed.

Lemma Ucore_waiting provider options i :
  Ucore env provider options = inr i -> isWaiting i.
Proof.
  unfold Ucore. destruct (_createProvider env _); [discriminate |].
  intros [= <-]. unfold isWaiting. cbn. eauto.
Qed.

Lemma runStep_pool (r : runtime) (s : step) :
  Forall (fun i => isWaiting i \/ isIdentified i) (instances r) ->
  Forall (fun i => isWaiting i \/ isIdentified i) (instances (runStep env r s))
  /\ (forall n i, instances r !! n = Some i -> isIdentified i ->
                  instances (runStep env r s) !! n = Some i).
Proof.
  intros Hall. destruct s as [p o | n]; cbn [runStep].
  - destruct (Ucore env p o) as [e | i] eqn:E; [auto |]. cbn [instances]. split.
    + apply Forall_app. split; [assumption |].
      constructor; [left; now apply (Ucore_waiting p o) | constructor].
    + intros n0 i0 Hn0 _. now apply lookup_app_l_Some.
  - destruct (instances r !! n) as [i |] eqn:Hn; [| auto].
    destruct (_networkPromise i) as [[network | e] |] eqn:Hp; [| auto | auto].
    destruct (networkResolved network i (Ucore_decimals r)) as [i' d'] eqn:Hres.
    cbn [instances]. split.
    + apply Forall_insert; [assumption |]. right.
      pose proof (networkResolved_identified network i (Ucore_decimals r)) as H.
      now rewrite Hres in H.
    + intros n0 i0 Hn0 (Hnone & _).
      destruct (decide (n = n0)) as [-> | Hne].
      * rewrite Hn in Hn0. injection Hn0 as ->. congruence.
      * now rewrite list_lookup_insert_ne.
Qed.

(** X19. In every run that starts from a pool of instances each of which is
    waiting for its network or identified, every instance stays in one
    of the two states, and an identified instance is never changed
    again: it keeps its network whatever is built or identified later. *)
Theorem pool_over_runs (steps : list step) (r : runtime) :
  Forall (fun i => isWaiting i \/ isIdentified i) (instances r) ->
  Forall (fun i => isWaiting i \/ isIdentified i) (instances (run env r steps))
  /\ (forall n i, instances r !! n = Some i -> isIdentified i ->
                  instances (run env r steps) !! n = Some i).
Proof.
  revert r. unfold run.
  induction steps as [| s steps IH]; intros r Hall; cbn [fold_left]; [auto |].
  destruct (runStep_pool r s Hall) as (Hall1 & Hkeep1).
  destruct (IH _ Hall1) as (Hall2 & Hkeep2).
  split; [assumption |]. intros n i Hn Hid. apply Hkeep2; auto.
Qed.

End Objects.

(** ** Market symbols *)

Section Markets.

Variable env : Env.

Lemma enterMarkets_loop_first errorPrefix t (pre post : list string) (s : string) :
  forall acc w,
    tableOf env (this w) = Some t ->
    Forall (fun x => vSymbol x ∈ vTokens env) pre ->
    vSymbol s ∉ vTokens env ->
    enterMarkets_loop env errorPrefix (VStr <$> (pre ++ s :: post)%list) acc w
    = (Throw (notRecognized env errorPrefix (VStr (vSymbol s))), w).
Proof.
  induction pre as [| x pre IH]; intros acc w Ht Hpre Hs;
    cbn [app fmap list_fmap enterMarkets_loop].
  - rewrite (bind_Return _ _ _ _ _ (prependV_string env s w)). unfold includes.
    now rewrite bool_decide_eq_false_2 by assumption.
  - inversion_clear Hpre as [| ? ? Hx Hrest].
    rewrite (bind_Return _ _ _ _ _ (prependV_string env x w)). unfold includes.
    rewrite bool_decide_eq_true_2 by assumption.
    rewrite (bind_Return _ _ _ _ _ (addressOf_table env _ _ _ Ht)).
    now apply IH.
Qed.

(** X20. The error of [enterMarkets] names the first symbol of the array
    that is not recognized, in its prefixed form; the symbols after it
    are not looked at, and nothing is sent. *)
Theorem enterMarkets_names_first (pre post : list string) (s : string)
    (options : fields) (w w1 : world) (t : gmap string string) :
  netId w = (Return tt, w1) ->
  tableOf env (this w1) = Some t ->
  Forall (fun x => vSymbol x ∈ vTokens env) pre ->
  vSymbol s ∉ vTokens env ->
  enterMarkets env (VArr (VStr <$> (pre ++ s :: post)%list)) options w
  = (Throw (Error ("Ucore [enterMarkets] | " +:+ "Provided market `" +:+ vSymbol s
                   +:+ "` is not a recognized vToken.")), w1).
Proof.
  intros Hnet Ht Hpre Hs. unfold enterMarkets.
  rewrite (bind_Return _ _ _ _ _ Hnet).
  now rewrite (bind_Throw _ _ _ _ _
                 (enterMarkets_loop_first "Ucore [enterMarkets] | " t pre post s [] w1
                                          Ht Hpre Hs)).
Qed.

Lemma vSymbol_vSymbol (s : string) : vSymbol (vSymbol s) = vSymbol s.
Proof.
  destruct s as [| c r]; [reflexivity |].
  destruct c as [[] [] [] [] [] [] [] []]; reflexivity.
Qed.

Lemma vSymbol_nonempty (s : string) : exists c r, vSymbol s = String c r.
Proof.
  destruct s as [| c r]; [now exists "v"%char, EmptyString |].
  destruct c as [[] [] [] [] [] [] [] []]; cbn; eauto.
Qed.

Lemma bind_ext {A B : Type} (m : async A) (f g : A -> async B) (w : world) :
  (forall a w', f a w' = g a w') -> (m ≫= f) w = (m ≫= g) w.
Proof.
  intros H. unfold mbind, async_bind. destruct (m w) as [[a | e] w']; auto.
Qed.

Lemma enterMarkets_loop_prefixed errorPrefix (ss : list string) : forall acc w,
  enterMarkets_loop env errorPrefix (VStr <$> (vSymbol <$> ss)) acc w
  = enterMarkets_loop env errorPrefix (VStr <$> ss) acc w.
Proof.
  induction ss as [| s ss IH]; intros acc w; [reflexivity |].
  cbn [fmap list_fmap enterMarkets_loop].
  rewrite (bind_Return _ _ _ _ _ (prependV_string env (vSymbol s) w)).
  rewrite (bind_Return _ _ _ _ _ (prependV_string env s w)).
  rewrite vSymbol_vSymbol.
  destruct (includes (vTokens env) (VStr (vSymbol s))); [| reflexivity].
  apply bind_ext. intros a w'. apply IH.
Qed.

(** X21. The ['v'] in front of a market symbol is optional and the functions
    cannot tell whether it was given: [enterMarkets] and [exitMarket] run
    the same on a symbol and on its prefixed form, in every world, down
    to the request and to the error. *)
Theorem market_prefix_optional (ss : list string) (s : string) (options : fields)
    (w : world) :
  enterMarkets env (VArr (VStr <$> (vSymbol <$> ss))) options w
  = enterMarkets env (VArr (VStr <$> ss)) options w
  /\ enterMarkets env (VStr (vSymbol s)) options w
     = enterMarkets env (VStr s) options w
  /\ (s <> "" ->
      exitMarket env (VStr (vSymbol s)) options w = exitMarket env (VStr s) options w).
Proof.
  assert (forall xs, enterMarkets env (VArr (VStr <$> (vSymbol <$> xs))) options w
                     = enterMarkets env (VArr (VStr <$> xs)) options w) as Harr.
  { intros xs. unfold enterMarkets. apply bind_ext. intros [] w1.
    unfold mbind, async_bind. now rewrite enterMarkets_loop_prefixed. }
  split; [apply Harr |]. split; [apply (Harr [s]) |].
  intros Hs. destruct s as [| c r]; [contradiction |].
  destruct (vSymbol_nonempty (String c r)) as (c' & r' & E).
  unfold exitMarket. apply bind_ext. intros [] w1.
  rewrite E, !exitMarket_symbol, <- E, vSymbol_vSymbol. reflexivity.
Qed.

End Markets.

(** ** The further properties on the concrete deployments *)

Lemma reads_only_read_witness :
  let env := Demo.env Demo.answers in
  let run := getUAIMintRate env [] Demo.identified in
  this (snd run) = this Demo.identified
  /\ (log (snd run) = log Demo.identified
      \/ exists a m ps os, log (snd run) = (log Demo.identified ++ [Read a m ps os])%list).
Proof.
  intros env run.
  destruct (reads_only_read env VNull VNull [])
    as (_ & _ & _ & Hrate & _).
  destruct (Hrate Demo.identified (fst run) (snd run)) as (Hthis & _ & Hlog);
    [apply surjective_pairing | auto].
Defined.

Lemma rejections_surface_elsewhere_witness :
  let e := Error "execution reverted" in
  let env := Demo.env (Demo.fails e) in
  fst (enterMarkets env (VStr "SXP") [] Demo.waiting) = Throw e
  /\ fst (delegate env (VStr Demo.user) [] Demo.waiting) = Throw e.
Proof.
  intros e env.
  destruct (rejections_surface_elsewhere env (VStr "SXP") VNull VNull VNull [])
    as (Henter & _).
  destruct (rejections_surface_elsewhere env (VStr Demo.user) VNull VNull VNull [])
    as (_ & _ & Hdelegate & _).
  split.
  - destruct (enterMarkets env (VStr "SXP") [] Demo.waiting) as [o w'] eqn:Hrun.
    apply (Henter Demo.waiting o w'
             (Trx (VStr Demo.controllerAddress) "enterMarkets" [VArr [VStr Demo.vSXP]]
                  [("_ucoreProvider", VHost "wallet"); ("abi", VHost "abi.Controller")]) e);
      [exact Hrun | | reflexivity].
    apply (f_equal snd) in Hrun. cbn [snd] in Hrun. rewrite <- Hrun. evaluated.
  - destruct (delegate env (VStr Demo.user) [] Demo.waiting) as [o w'] eqn:Hrun.
    apply (Hdelegate Demo.waiting o w'
             (Trx (VStr Demo.ucoreAddress) "delegate" [VStr Demo.user]
                  [("_ucoreProvider", VHost "wallet"); ("abi", VHost "abi.UCORE")]) e);
      [exact Hrun | | reflexivity].
    apply (f_equal snd) in Hrun. cbn [snd] in Hrun. rewrite <- Hrun. evaluated.
Defined.

Lemma delegate_forwards_witness :
  let env := Demo.env Demo.answers in
  netId Demo.waiting = (Return tt, Demo.identified)
  /\ (42 <= String.length Demo.lower)%nat
  /\ (exists a, Checksum.toChecksumAddress Demo.lower = Some a
        /\ delegate env (VStr Demo.lower) [] Demo.waiting
           = (Return (VStr "0xtx"),
              logged (Trx (VStr Demo.ucoreAddress) "delegate" [VStr a]
                          [("_ucoreProvider", VHost "wallet"); ("abi", VHost "abi.UCORE")])
                     Demo.identified))
  /\ delegate env (VStr "0x5aaeb6") [] Demo.waiting
     = (Throw (Error ("Ucore [delegate] | " +:+
                      "Argument `_address` must be a valid Ethereum address.")),
        Demo.identified).
Proof.
  intros env.
  assert (netId Demo.waiting = (Return tt, Demo.identified)) as Hnet by evaluated.
  assert (42 <= String.length Demo.lower)%nat as Hlen by (vm_compute; lia).
  split; [exact Hnet |]. split; [exact Hlen |]. split.
  - destruct (delegate_forwards env (VStr Demo.lower) [] Demo.waiting Demo.identified Hnet)
      as (_ & _ & Hforward).
    destruct (Hforward Demo.lower Demo.table eq_refl eq_refl Hlen) as (a & Ha & _ & Hrun);
      [evaluated |].
    exists a. split; [exact Ha | exact Hrun].
  - destruct (delegate_forwards env (VStr "0x5aaeb6") [] Demo.waiting Demo.identified Hnet)
      as (_ & Hshort & _).
    apply (Hshort "0x5aaeb6" eq_refl eq_refl). vm_compute; lia.
Defined.



Lemma claimUcore_sends_witness :
  let env := Demo.env Demo.answers in
  let w := Demo.start (Demo.pending (Demo.signer (Fulfilled (VStr Demo.user))) Demo.mainnet) in
  netId w = (Return tt, snd (netId w))
  /\ claimUcore env [] w
     = (Return (VStr "0xtx"),
        logged (Trx (VStr Demo.controllerAddress) "claimUcore(address)" [VStr Demo.user]
                    [("_ucoreProvider", VHost "signer"); ("abi", VHost "abi.Controller")])
               (snd (netId w))).
Proof.
  intros env w.
  assert (netId w = (Return tt, snd (netId w))) as Hnet by reflexivity.
  split; [exact Hnet |].
  apply (claimUcore_sends env [] w (snd (netId w)) Demo.table (VStr Demo.user) Hnet);
    [evaluated |].
  right. left. split; reflexivity.
Defined.

Lemma uai_transactions_witness :
  let env := Demo.env Demo.answers in
  netId Demo.waiting = (Return tt, Demo.identified)
  /\ repayUAI env (VNum 5) [("mantissa", VBool true)] Demo.waiting
     = (Return (VStr "0xtx"),
        logged (Trx (VStr Demo.controllerAddress) "repayUAI" [VBig 5]
                    [("mantissa", VBool true); ("_ucoreProvider", VHost "wallet");
                     ("abi", VHost "abi.Controller")])
               Demo.identified)
  /\ mintUAI env (VStr "five") [] Demo.waiting
     = (Throw (Error "invalid BigNumber string"), Demo.identified).
Proof.
  intros env.
  assert (netId Demo.waiting = (Return tt, Demo.identified)) as Hnet by evaluated.
  split; [exact Hnet |]. split.
  - destruct (uai_transactions env (VNum 5) [("mantissa", VBool true)]
                Demo.waiting Demo.identified Demo.table Hnet) as (_ & Hsend);
      [reflexivity | evaluated |].
    destruct (Hsend (VBig 5) eq_refl) as (_ & Hrepay). exact Hrepay.
  - destruct (uai_transactions env (VStr "five") []
                Demo.waiting Demo.identified Demo.table Hnet) as (Hfail & _);
      [reflexivity | evaluated |].
    destruct (Hfail (Error "invalid BigNumber string") eq_refl) as (Hmint & _).
    exact Hmint.
Defined.

Lemma unknown_network_returned_witness :
  let env := Demo.env Demo.answers in
  let ropsten := {| net_id := 3; net_name := "ropsten" |} in
  let w := Demo.start (Demo.ready Demo.wallet ropsten) in
  address env !! "ropsten" = None
  /\ claimUcore env [] w
     = (Return (VErr (Err "TypeError"
                          ("Ucore [claimUcore] | " +:+ err_message (TypeError "Controller")))),
        w)
  /\ enterMarkets env (VArr []) [] w = (Throw (TypeError "Controller"), w).
Proof.
  intros env ropsten w.
  destruct (unknown_network_returned env (VNum 1) (VBig 1) [] w w ropsten
              (VStr Demo.user) Demo.lower Demo.user)
    as (Hclaim & _ & _ & Henter & _); try evaluated.
  split; [reflexivity |]. split; [exact Hclaim | exact Henter].
Defined.

Lemma createDelegateSignature_needs_nonce_witness :
  let e := Error "call revert exception" in
  let env := Demo.env (Demo.fails e) in
  netId Demo.waiting = (Return tt, Demo.identified)
  /\ createDelegateSignature env (VStr Demo.user) VUndefined Demo.waiting
     = (Throw e,
        logged (noncesRead (VStr Demo.ucoreAddress) (VStr Demo.user) (VStr "mainnet"))
               Demo.identified).
Proof.
  intros e env.
  assert (netId Demo.waiting = (Return tt, Demo.identified)) as Hnet by evaluated.
  split; [exact Hnet |].
  destruct (createDelegateSignature_needs_nonce env (VStr Demo.user) VUndefined
              Demo.waiting Demo.identified Demo.table Hnet) as (_ & Hread);
    [evaluated |].
  apply (Hread (VStr Demo.user) e); reflexivity.
Defined.

Lemma options_precedence_witness :
  let env := Demo.env Demo.answers in
  let options := [("abi", VStr "mine"); ("gasLimit", VNum 5)] in
  let i := Demo.ready Demo.wallet Demo.mainnet in
  NoDup (fst <$> options)
  /\ getField "abi" (withProvider env options Demo.wallet "UCORE") = VHost "abi.UCORE"
  /\ getField "abi" (controllerOptions env i options) = VStr "mine"
  /\ getField "gasLimit" (withProvider env options Demo.wallet "UCORE") = VNum 5.
Proof.
  intros env options i.
  assert (NoDup (fst <$> options)) as Hnd.
  { cbn. repeat constructor; intros H;
      repeat (apply elem_of_cons in H as [[=] | H]); now apply elem_of_nil in H. }
  destruct (options_precedence env options Demo.wallet i "UCORE" "gasLimit" Hnd)
    as (_ & Habi & Hother & _ & Hmine).
  destruct Hother as (Hgas & _); try discriminate.
  split; [exact Hnd |]. split; [exact Habi |]. split; [exact Hmine | exact Hgas].
Defined.

Lemma bindings_by_name_witness :
  let env := Demo.env Demo.answers in
  Ucore env VUndefined [] = inr (Demo.built env)
  /\ bindings (Demo.built env) !! "enterMarkets" = Some (VFun "controller" "enterMarkets")
  /\ bindings (Demo.built env) !! "castVote" = Some (VFun "gov" "castVote")
  /\ bindings (Demo.built env) !! "getUcoreBalance" = None.
Proof.
  intros env.
  assert (Ucore env VUndefined [] = inr (Demo.built env)) as Hbuilt by evaluated.
  assert (forall k v, k ∉ boundNames -> k ∉ vaiNames ->
            (if bool_decide (k ∈ gov_exports env) then Some (VFun "gov" k)
             else if bool_decide (k ∈ priceFeed_exports env) then Some (VFun "priceFeed" k)
             else if bool_decide (k ∈ vToken_exports env) then Some (VFun "vToken" k)
             else if bool_decide (k ∈ ["enterMarkets"; "exitMarket"])
                  then Some (VFun "controller" k)
             else None) = v ->
            bindings (Demo.built env) !! k = v) as Hby.
  { intros k v Hb Hv <-.
    destruct (bindings_by_name env VUndefined [] (Demo.built env) k Hbuilt) as (_ & H).
    now apply H. }
  assert (forall k (l : list string), bool_decide (k ∈ l) = false -> k ∉ l) as Hout
      by (intros k l H; now apply bool_decide_eq_false in H).
  split; [exact Hbuilt |].
  split; [| split]; apply Hby; try (apply Hout; evaluated); evaluated.
Defined.

Lemma decimals_over_runs_witness :
  let env := Demo.env Demo.answers in
  let r := {| Ucore_decimals := Demo.decimals0; instances := [] |} in
  let steps := [Construct (VStr "mainnet") []; Settle 0%nat;
                Construct (VStr "testnet") []; Settle 1%nat] in
  Ucore_decimals (run env r steps) !! "SXP" = Some 18
  /\ Ucore_decimals (run env r steps) !! "BNB" = None.
Proof.
  intros env r steps.
  destruct (decimals_over_runs env steps r "SXP") as (_ & _ & Hstay).
  destruct (decimals_over_runs env steps r "BNB") as (Hother & _).
  split; [apply Hstay; reflexivity |].
  rewrite Hother by discriminate. reflexivity.
Defined.

Lemma pool_over_runs_witness :
  let env := Demo.env Demo.answers in
  let r := {| Ucore_decimals := Demo.decimals0;
              instances := [Demo.ready Demo.wallet Demo.testnet] |} in
  let steps := [Construct (VStr "mainnet") []; Settle 1%nat; Settle 0%nat] in
  isIdentified (Demo.ready Demo.wallet Demo.testnet)
  /\ instances (run env r steps) !! 0%nat = Some (Demo.ready Demo.wallet Demo.testnet)
  /\ Forall (fun i => isWaiting i \/ isIdentified i) (instances (run env r steps)).
Proof.
  intros env r steps.
  assert (isIdentified (Demo.ready Demo.wallet Demo.testnet)) as Hid
      by (unfold isIdentified; cbn; eauto).
  destruct (pool_over_runs env steps r) as (Hall & Hkeep);
    [constructor; [right; exact Hid | constructor] |].
  split; [exact Hid |]. split; [| exact Hall].
  apply Hkeep; [reflexivity | exact Hid].
Defined.

Lemma enterMarkets_names_first_witness :
  let env := Demo.env Demo.answers in
  netId Demo.waiting = (Return tt, Demo.identified)
  /\ enterMarkets env (VArr [VStr "SXP"; VStr "DAI"; VStr "ETH"]) [] Demo.waiting
     = (Throw (Error ("Ucore [enterMarkets] | " +:+
                      "Provided market `vDAI` is not a recognized vToken.")),
        Demo.identified).
Proof.
  intros env.
  assert (netId Demo.waiting = (Return tt, Demo.identified)) as Hnet by evaluated.
  split; [exact Hnet |].
  apply (enterMarkets_names_first env ["SXP"] ["ETH"] "DAI" [] Demo.waiting Demo.identified
           Demo.table Hnet); [evaluated | repeat constructor; member |].
  apply (bool_decide_eq_false_1 (vSymbol "DAI" ∈ vTokens env)). evaluated.
Defined.

Lemma market_prefix_optional_witness :
  let env := Demo.env Demo.answers in
  "SXP" <> ""
  /\ exitMarket env (VStr "vSXP") [] Demo.waiting = exitMarket env (VStr "SXP") [] Demo.waiting
  /\ enterMarkets env (VArr [VStr "vSXP"; VStr "vUSDC"]) [] Demo.waiting
     = enterMarkets env (VArr [VStr "SXP"; VStr "USDC"]) [] Demo.waiting.
Proof.
  intros env.
  destruct (market_prefix_optional env ["SXP"; "USDC"] "SXP" [] Demo.waiting)
    as (Henter & _ & Hexit).
  split; [discriminate |]. split; [apply Hexit; discriminate | exact Henter].
Defined.


(** * Failures of the client library, and validation *)

(** ** What becomes of a failure of the client library *)

Section Failures.

Variable env : Env.













End Failures.

(** ** What [delegateBySig] validates *)

Section Validation.

Variable env : Env.

Import Checksum.









End Validation.

(** ** On the concrete deployment *)

(** [createDelegateSignature] on the deployment: the nonce read at the
    user's address, then the typed data handed to [sign], spelled
    out. *)
Lemma createDelegateSignature_typedData_witness :
  let env := Demo.env Demo.answers in
  let read := Read (VStr Demo.ucoreAddress) "function nonces(address) returns (uint)"
                   [VStr Demo.user] [("provider", VStr "mainnet")] in
  let field name type := VObj true [("name", VStr name); ("type", VStr type)] in
  let typed :=
    Sign (VObj true [("name", VStr "Ucore"); ("chainId", VNum 56);
                     ("verifyingContract", VStr Demo.ucoreAddress)])
         "Delegation"
         (VObj true [("delegatee", VStr Demo.user); ("nonce", VNum 4);
                     ("expiry", VNum 10000000000)])
         (VObj true [("EIP712Domain", VArr [field "name" "string"; field "chainId" "uint256";
                                            field "verifyingContract" "address"]);
                     ("Delegation", VArr [field "delegatee" "address"; field "nonce" "uint256";
                                          field "expiry" "uint256"])])
         (VHost "wallet") in
  netId Demo.waiting = (Return tt, Demo.identified)
  /\ respond env read = Promise (Fulfilled (VBig 4))
  /\ createDelegateSignature env (VStr Demo.user) VUndefined Demo.waiting
     = (Return Demo.signature, logged typed (logged read Demo.identified)).
Proof.
  intros env read field typed.
  assert (netId Demo.waiting = (Return tt, Demo.identified)) as Hnet by evaluated.
  assert (respond env read = Promise (Fulfilled (VBig 4))) as Hread by evaluated.
  split; [exact Hnet |]. split; [exact Hread |].
  exact (createDelegateSignature_typedData env (VStr Demo.user) VUndefined
           Demo.waiting Demo.identified Demo.mainnet Demo.table (VStr Demo.user) (VBig 4)
           Hnet eq_refl eq_refl (or_introl (conj eq_refl eq_refl)) Hread
           ltac:(discriminate) ltac:(discriminate)).
Defined.




